(** * inventario_sqlite.py: the cache/index layer in front of the table [productos]

    A shallow embedding of the classes [Producto] and [Inventario] of
    [src/inventario_tienda/inventario_sqlite.py], and the properties of the
    in-memory indexes that the specification states about them.

    Modelling choices, each following the Python source:
    - a Python [str] is a [string]; every character is read as a code point
      below 256, for which [isspace] and [lower_char] are Python's
      [str.isspace] and [str.lower];
    - a Python [int] is a [Z], a Python [float] is a primitive IEEE-754
      binary64 [float];
    - [Dict[int, Producto]] is an association list in insertion order (the
      iteration order of a Python dict), [Dict[str, Set[int]]] is a [gmap]
      from strings to [gset Z] (it is never iterated, and the iteration order
      of a Python set is unspecified);
    - the SQLite connection is a table keyed by rowid, the AUTOINCREMENT
      counter and the list of write statements handed to [execute];
    - a method of [Inventario] is a computation in a state-and-exception
      monad over the object: an exception leaves the state as it was when it
      was raised. *)

From Stdlib Require Import ZArith Lia String Ascii.
From Stdlib Require Import Floats.PrimFloat.
From Stdlib Require Floats.FloatAxioms.
From stdpp Require Import gmap strings list sorting.

Local Open Scope Z_scope.

#[local] Set Warnings "-clear-no-such-hyp".

(** ** Python strings *)

Module Str.

(** [str.isspace] on one code point below 256: TAB..CR, FS..US, space,
    NEL (0x85) and NBSP (0xA0). *)
Definition isspace (c : ascii) : bool :=
  let n := N_of_ascii c in
  (((9 <=? n) && (n <=? 13)) || ((28 <=? n) && (n <=? 32))
   || (n =? 133) || (n =? 160))%N.

(** [str.lower] on one code point below 256: A..Z and the Latin-1 capitals
    (0xC0..0xDE but the multiplication sign 0xD7) move up by 32. *)
Definition lower_char (c : ascii) : ascii :=
  let n := N_of_ascii c in
  if (((65 <=? n) && (n <=? 90)) || ((192 <=? n) && (n <=? 214))
      || ((216 <=? n) && (n <=? 222)))%N
  then ascii_of_N (n + 32) else c.

Fixpoint lower (s : string) : string :=
  match s with
  | EmptyString => EmptyString
  | String c s' => String (lower_char c) (lower s')
  end.

Fixpoint lstrip (s : string) : string :=
  match s with
  | EmptyString => EmptyString
  | String c s' => if isspace c then lstrip s' else s
  end.

Fixpoint rstrip (s : string) : string :=
  match s with
  | EmptyString => EmptyString
  | String c s' =>
      match rstrip s' with
      | EmptyString => if isspace c then EmptyString else String c EmptyString
      | r => String c r
      end
  end.

(** [s.strip()] *)
Definition strip (s : string) : string := rstrip (lstrip s).

(** [q in s] for two strings: [q] occurs in [s] as a substring. *)
Fixpoint contains (q s : string) : bool :=
  String.prefix q s
  || match s with
     | EmptyString => false
     | String _ s' => contains q s'
     end.

(** every character of [s] is whitespace *)
Fixpoint blank (s : string) : bool :=
  match s with
  | EmptyString => true
  | String c s' => isspace c && blank s'
  end.

End Str.

(** ** Python dicts with integer keys, in insertion order *)

Section Dict.
Context {V : Type}.

(** [d.get(k)] *)
Fixpoint dict_get (d : list (Z * V)) (k : Z) : option V :=
  match d with
  | [] => None
  | (k', v) :: d' => if decide (k = k') then Some v else dict_get d' k
  end.

(** [d[k] = v]: a present key keeps its position, a new key goes last. *)
Fixpoint dict_set (d : list (Z * V)) (k : Z) (v : V) : list (Z * V) :=
  match d with
  | [] => [(k, v)]
  | (k', v') :: d' =>
      if decide (k = k') then (k, v) :: d' else (k', v') :: dict_set d' k v
  end.

(** [d.pop(k, None)], the returned value dropped *)
Fixpoint dict_pop (d : list (Z * V)) (k : Z) : list (Z * V) :=
  match d with
  | [] => []
  | (k', v') :: d' =>
      if decide (k = k') then d' else (k', v') :: dict_pop d' k
  end.

(** [d.values()] *)
Definition dict_values (d : list (Z * V)) : list V := d.*2.

(** [d.keys()] *)
Definition dict_keys (d : list (Z * V)) : list Z := d.*1.

End Dict.

(** ** The model: [Producto] *)

Record Producto : Type := mkProducto {
  id : option Z;        (* None until the row is inserted *)
  nombre : string;
  cantidad : Z;
  precio : float
}.

(** [Producto.to_tuple] *)
Definition to_tuple (p : Producto) : option Z * string * Z * float :=
  (id p, nombre p, cantidad p, precio p).

(** ** The SQLite connection *)

(** The columns of a row of [productos] other than its rowid [id]. *)
Record Fila : Type := mkFila {
  col_nombre : string;
  col_cantidad : Z;
  col_precio : float
}.

(** The write statements the class hands to [conn.execute], with their
    bound parameters. *)
Inductive Sentencia : Type :=
| INSERT (n : string) (c : Z) (pr : float)
| DELETE (i : Z)
| UPDATE_cantidad (c : Z) (i : Z)
| UPDATE_precio (pr : float) (i : Z)
| UPDATE_nombre (n : string) (i : Z).

Inductive Excepcion : Type :=
| ValueError          (* raised by the class itself *)
| OverflowError       (* sqlite3: Python int too large for SQLite INTEGER *)
| IntegrityError      (* sqlite3: NOT NULL or CHECK constraint failed *)
| OperationalError    (* sqlite3: no rowid left *)
| KeyError.           (* a dict subscript on a missing key *)

Record Conexion : Type := mkConexion {
  productos : gmap Z Fila;       (* the table, keyed by rowid *)
  sqlite_sequence : Z;           (* largest rowid AUTOINCREMENT has given *)
  llamadas : list Sentencia      (* every statement passed to [execute] *)
}.

Definition INT64_MAX : Z := 9223372036854775807.
Definition INT64_MIN : Z := -9223372036854775808.

(** A Python int binds to an SQLite INTEGER only inside the 64-bit range. *)
Definition cabe_int64 (z : Z) : bool := (INT64_MIN <=? z) && (z <=? INT64_MAX).

(** [cantidad INTEGER NOT NULL CHECK (cantidad >= 0)] *)
Definition check_cantidad (c : Z) : bool := 0 <=? c.

(** [precio REAL NOT NULL CHECK (precio >= 0)]: a NaN is bound as NULL and
    fails NOT NULL, any other float fails the CHECK unless it is [>= 0]. *)
Definition check_precio (pr : float) : bool := PrimFloat.leb 0%float pr.

(** The float a REAL column gives back for a stored [pr]: SQLite keeps a
    float with an integer value as that integer and reads it back as a
    float, which loses nothing but the sign of a negative zero. *)
Definition real_almacenado (pr : float) : float :=
  if PrimFloat.eqb pr 0%float then 0%float else pr.

Definition max_rowid (t : gmap Z Fila) : Z :=
  foldr Z.max 0 (map_to_list t).*1.

(** The rowid AUTOINCREMENT gives to the next inserted row: one more than
    the largest rowid the table holds or has ever held. *)
Definition siguiente_rowid (c : Conexion) : Z :=
  1 + Z.max (sqlite_sequence c) (max_rowid (productos c)).

Definition con_tabla (t : gmap Z Fila) (c : Conexion) : Conexion :=
  {| productos := t; sqlite_sequence := sqlite_sequence c; llamadas := llamadas c |}.

(** What a statement does to the table, once its parameters are bound; the
    result is the cursor's [lastrowid]. *)
Definition aplicar (s : Sentencia) (c : Conexion) : (Excepcion + Z) * Conexion :=
  match s with
  | INSERT n cant pr =>
      if negb (cabe_int64 cant) then (inl OverflowError, c)
      else if negb (check_cantidad cant && check_precio pr) then (inl IntegrityError, c)
      else
        let i := siguiente_rowid c in
        if negb (i <=? INT64_MAX) then (inl OperationalError, c)
        else (inr i,
              {| productos :=
                   <[i := mkFila n cant (real_almacenado pr)]> (productos c);
                 sqlite_sequence := i;
                 llamadas := llamadas c |})
  | DELETE i =>
      if negb (cabe_int64 i) then (inl OverflowError, c)
      else (inr 0, con_tabla (delete i (productos c)) c)
  | UPDATE_cantidad cant i =>
      if negb (cabe_int64 cant && cabe_int64 i) then (inl OverflowError, c)
      else match productos c !! i with
           | None => (inr 0, c)
           | Some f =>
               if negb (check_cantidad cant) then (inl IntegrityError, c)
               else (inr 0, con_tabla (<[i := mkFila (col_nombre f) cant (col_precio f)]> (productos c)) c)
           end
  | UPDATE_precio pr i =>
      if negb (cabe_int64 i) then (inl OverflowError, c)
      else match productos c !! i with
           | None => (inr 0, c)
           | Some f =>
               if negb (check_precio pr) then (inl IntegrityError, c)
               else (inr 0, con_tabla (<[i := mkFila (col_nombre f) (col_cantidad f)
                                                    (real_almacenado pr)]>
                                         (productos c)) c)
           end
  | UPDATE_nombre n i =>
      if negb (cabe_int64 i) then (inl OverflowError, c)
      else match productos c !! i with
           | None => (inr 0, c)
           | Some f =>
               (inr 0, con_tabla (<[i := mkFila n (col_cantidad f) (col_precio f)]> (productos c)) c)
           end
  end.

(** [conn.execute(sentencia, parametros)]: the call is recorded, then the
    statement runs; a statement that fails changes no row. *)
Definition execute (s : Sentencia) (c : Conexion) : (Excepcion + Z) * Conexion :=
  aplicar s {| productos := productos c;
               sqlite_sequence := sqlite_sequence c;
               llamadas := llamadas c ++ [s] |}.

(** [conn.execute("SELECT id, nombre, cantidad, precio FROM productos").fetchall()] *)
Definition fetchall (c : Conexion) : list (Z * Fila) := map_to_list (productos c).

(** ** The repository and its cache: [Inventario] *)

Record Inventario : Type := mkInventario {
  conn : Conexion;
  _productos_por_id : list (Z * Producto);
  _nombre_idx : gmap string (gset Z)
}.

(** [Inventario._normaliza] *)
Definition _normaliza (s : string) : string := Str.lower (Str.strip s).

(** *** Methods as computations over [self] *)

(** A method body: from the object before the call to what the call gives
    (a raised exception or a returned value) and the object after it. *)
Definition Metodo (A : Type) : Type := Inventario → (Excepcion + A) * Inventario.

Definition devolver {A} (a : A) : Metodo A := λ self, (inr a, self).

Definition raise {A} (e : Excepcion) : Metodo A := λ self, (inl e, self).

Definition luego {A B} (m : Metodo A) (k : A → Metodo B) : Metodo B :=
  λ self,
    match m self with
    | (inl e, self') => (inl e, self')
    | (inr a, self') => k a self'
    end.

Notation "x <- m ;;; k" := (luego m (λ x, k))
  (at level 100, m at next level, right associativity,
   format "'[v' x  <-  m  ;;; '/' k ']'").
Notation "m ;;; k" := (luego m (λ _, k))
  (at level 100, right associativity, format "'[v' m  ;;; '/' k ']'").

(** Read an attribute of [self]. *)
Definition leer {A} (f : Inventario → A) : Metodo A := λ self, (inr (f self), self).

(** An internal method that mutates [self] and cannot raise. *)
Definition mutar (f : Inventario → Inventario) : Metodo unit :=
  λ self, (inr tt, f self).

(** [self.conn.execute(s)], giving the cursor's [lastrowid]. *)
Definition conn_execute (s : Sentencia) : Metodo Z :=
  λ self,
    let '(r, c) := execute s (conn self) in
    (r, {| conn := c;
           _productos_por_id := _productos_por_id self;
           _nombre_idx := _nombre_idx self |}).

(** [self.conn.commit()]: the single connection sees its own writes at
    once, so committing changes nothing it can observe. *)
Definition conn_commit : Metodo unit := devolver tt.

(** *** Index maintenance *)

(** Lines 106-109 and 116-119: discard [i] from the set under [clave], and
    pop the key when the set is left empty. *)
Definition descartar (clave : string) (i : Z) (idx : gmap string (gset Z))
    : gmap string (gset Z) :=
  match idx !! clave with
  | Some s =>
      let s' := s ∖ {[i]} in
      let idx' := <[clave := s']> idx in
      if decide (s' = ∅) then delete clave idx' else idx'
  | None => idx
  end.

(** [Inventario._indexar] *)
Definition _indexar (p : Producto) (self : Inventario) : Inventario :=
  match id p with
  | None => self
  | Some i =>
      let por_id := dict_set (_productos_por_id self) i p in
      let clave := _normaliza (nombre p) in
      let idx := match _nombre_idx self !! clave with
                 | None => <[clave := ∅]> (_nombre_idx self)
                 | Some _ => _nombre_idx self
                 end in
      {| conn := conn self;
         _productos_por_id := por_id;
         _nombre_idx := alter (λ s, s ∪ {[i]}) clave idx |}
  end.

(** [Inventario._desindexar] *)
Definition _desindexar (p : Producto) (self : Inventario) : Inventario :=
  match id p with
  | None => self
  | Some i =>
      {| conn := conn self;
         _productos_por_id := dict_pop (_productos_por_id self) i;
         _nombre_idx := descartar (_normaliza (nombre p)) i (_nombre_idx self) |}
  end.

(** [Inventario._reindexar_nombre] *)
Definition _reindexar_nombre (p : Producto) (nombre_anterior : string)
    (self : Inventario) : Inventario :=
  match id p with
  | None => self
  | Some i =>
      _indexar p
        {| conn := conn self;
           _productos_por_id := _productos_por_id self;
           _nombre_idx := descartar (_normaliza nombre_anterior) i (_nombre_idx self) |}
  end.

(** [Inventario._cargar_desde_db] *)
Definition _cargar_desde_db (self : Inventario) : Inventario :=
  foldl (λ self row, _indexar (mkProducto (Some row.1) (col_nombre row.2)
                                 (col_cantidad row.2) (col_precio row.2)) self)
        {| conn := conn self; _productos_por_id := []; _nombre_idx := ∅ |}
        (fetchall (conn self)).

(** [Inventario.__init__] on a database file that holds the table [c]
    (a new file holds the empty table that CREATE TABLE IF NOT EXISTS makes). *)
Definition __init__ (c : Conexion) : Inventario :=
  _cargar_desde_db {| conn := c; _productos_por_id := []; _nombre_idx := ∅ |}.

(** *** CRUD *)

(** In place [p.cantidad = c], [p.precio = pr], [p.nombre = n] on the object
    the dict holds under [i]: the dict sees the new field, the entry keeps
    its place. *)
Definition set_cantidad (c : Z) (p : Producto) : Producto :=
  mkProducto (id p) (nombre p) c (precio p).
Definition set_precio (pr : float) (p : Producto) : Producto :=
  mkProducto (id p) (nombre p) (cantidad p) pr.
Definition set_nombre (n : string) (p : Producto) : Producto :=
  mkProducto (id p) n (cantidad p) (precio p).

Definition mutar_objeto (i : Z) (p' : Producto) : Metodo unit :=
  mutar (λ self,
    {| conn := conn self;
       _productos_por_id := dict_set (_productos_por_id self) i p';
       _nombre_idx := _nombre_idx self |}).

(** [Inventario.anadir_producto] *)
Definition anadir_producto (nombre : string) (cantidad : Z) (precio : float)
    : Metodo Producto :=
  if (cantidad <? 0) || PrimFloat.ltb precio 0%float then raise ValueError
  else
    nuevo_id <- conn_execute (INSERT (Str.strip nombre) cantidad precio) ;;;
    conn_commit ;;;
    let p := mkProducto (Some nuevo_id) (Str.strip nombre) cantidad precio in
    mutar (_indexar p) ;;;
    devolver p.

(** [Inventario.eliminar_producto] *)
Definition eliminar_producto (prod_id : Z) : Metodo bool :=
  o <- leer (λ self, dict_get (_productos_por_id self) prod_id) ;;;
  match o with
  | None => devolver false
  | Some p =>
      conn_execute (DELETE prod_id) ;;;
      conn_commit ;;;
      mutar (_desindexar p) ;;;
      devolver true
  end.

(** [Inventario.actualizar_cantidad] *)
Definition actualizar_cantidad (prod_id : Z) (nueva_cantidad : Z) : Metodo bool :=
  if nueva_cantidad <? 0 then raise ValueError
  else
    o <- leer (λ self, dict_get (_productos_por_id self) prod_id) ;;;
    match o with
    | None => devolver false
    | Some p =>
        conn_execute (UPDATE_cantidad nueva_cantidad prod_id) ;;;
        conn_commit ;;;
        (* p.set_cantidad(int(nueva_cantidad)) *)
        (if nueva_cantidad <? 0 then raise ValueError
         else mutar_objeto prod_id (set_cantidad nueva_cantidad p)) ;;;
        devolver true
    end.

(** [Inventario.actualizar_precio] *)
Definition actualizar_precio (prod_id : Z) (nuevo_precio : float) : Metodo bool :=
  if PrimFloat.ltb nuevo_precio 0%float then raise ValueError
  else
    o <- leer (λ self, dict_get (_productos_por_id self) prod_id) ;;;
    match o with
    | None => devolver false
    | Some p =>
        conn_execute (UPDATE_precio nuevo_precio prod_id) ;;;
        conn_commit ;;;
        (* p.set_precio(float(nuevo_precio)) *)
        (if PrimFloat.ltb nuevo_precio 0%float then raise ValueError
         else mutar_objeto prod_id (set_precio nuevo_precio p)) ;;;
        devolver true
    end.

(** [Inventario.actualizar_nombre] *)
Definition actualizar_nombre (prod_id : Z) (nuevo_nombre : string) : Metodo bool :=
  o <- leer (λ self, dict_get (_productos_por_id self) prod_id) ;;;
  match o with
  | None => devolver false
  | Some p =>
      let nombre_anterior := nombre p in
      conn_execute (UPDATE_nombre (Str.strip nuevo_nombre) prod_id) ;;;
      conn_commit ;;;
      let p' := set_nombre (Str.strip nuevo_nombre) p in
      mutar_objeto prod_id p' ;;;
      mutar (_reindexar_nombre p' nombre_anterior) ;;;
      devolver true
  end.

(** *** Reads *)

(** [Inventario.obtener_por_id] *)
Definition obtener_por_id (prod_id : Z) : Metodo (option Producto) :=
  leer (λ self, dict_get (_productos_por_id self) prod_id).

(** The first loop of [buscar_por_nombre]: each id of the set is looked up
    with a subscript, which raises on a missing key. *)
Fixpoint recoger (ids : list Z) (encontrados : list Producto)
    : Metodo (list Producto) :=
  match ids with
  | [] => devolver encontrados
  | prod_id :: ids' =>
      o <- leer (λ self, dict_get (_productos_por_id self) prod_id) ;;;
      match o with
      | None => raise KeyError
      | Some p => recoger ids' (encontrados ++ [p])
      end
  end.

(** [Inventario.buscar_por_nombre] *)
Definition buscar_por_nombre (consulta : string) : Metodo (list Producto) :=
  let q := _normaliza consulta in
  ids <- leer (λ self, elements (default ∅ (_nombre_idx self !! q))) ;;;
  encontrados <- recoger ids [] ;;;
  match encontrados with
  | [] =>
      leer (λ self,
        List.filter (λ p, Str.contains q (_normaliza (nombre p)))
                    (dict_values (_productos_por_id self)))
  | _ => devolver encontrados
  end.

(** [sorted(xs, key=key)]: a stable sort, ascending in [key]. *)
Fixpoint insertar {A} (key : A → Z) (x : A) (l : list A) : list A :=
  match l with
  | [] => [x]
  | y :: l' => if key x <=? key y then x :: l else y :: insertar key x l'
  end.

Definition sorted {A} (key : A → Z) (l : list A) : list A :=
  foldr (insertar key) [] l.

(** [lambda p: p.id or 0] *)
Definition clave_orden (p : Producto) : Z :=
  match id p with
  | Some i => if decide (i = 0) then 0 else i
  | None => 0
  end.

(** [Inventario.listar_todos] *)
Definition listar_todos : Metodo (list Producto) :=
  leer (λ self, sorted clave_orden (dict_values (_productos_por_id self))).

(** ** Sequences of mutating calls *)

Inductive Operacion : Type :=
| Anadir (nombre : string) (cantidad : Z) (precio : float)
| Eliminar (prod_id : Z)
| ActualizarCantidad (prod_id : Z) (nueva_cantidad : Z)
| ActualizarPrecio (prod_id : Z) (nuevo_precio : float)
| ActualizarNombre (prod_id : Z) (nuevo_nombre : string).

(** The object after one call, whether the call returned or raised. *)
Definition paso (self : Inventario) (op : Operacion) : Inventario :=
  match op with
  | Anadir n c pr => (anadir_producto n c pr self).2
  | Eliminar i => (eliminar_producto i self).2
  | ActualizarCantidad i c => (actualizar_cantidad i c self).2
  | ActualizarPrecio i pr => (actualizar_precio i pr self).2
  | ActualizarNombre i n => (actualizar_nombre i n self).2
  end.

Definition ejecutar (ops : list Operacion) (self : Inventario) : Inventario :=
  foldl paso self ops.

(** A database file that does not exist yet: CREATE TABLE IF NOT EXISTS
    makes the empty table. *)
Definition db_nueva : Conexion :=
  {| productos := ∅; sqlite_sequence := 0; llamadas := [] |}.

(** ** Vocabulary of the properties *)

(** The map from each key to the value [dict_get] finds under it. *)
Definition vista {V : Type} (d : list (Z * V)) : gmap Z V := list_to_map d.

(** [i] is in the set that [idx] holds under the key [k]. *)
Definition en_idx (idx : gmap string (gset Z)) (k : string) (i : Z) : Prop :=
  ∃ s, idx !! k = Some s ∧ i ∈ s.

(** No key of [idx] maps to the empty set. *)
Definition sin_vacios (idx : gmap string (gset Z)) : Prop :=
  ∀ k s, idx !! k = Some s → s ≠ ∅.

(** What lines 96-99 of [_indexar] leave in the index. *)
Definition anotar (k : string) (i : Z) (idx : gmap string (gset Z))
    : gmap string (gset Z) :=
  <[k := default ∅ (idx !! k) ∪ {[i]}]> idx.

(** The row a cached object stands for. *)
Definition fila_de (p : Producto) : Fila :=
  mkFila (nombre p) (cantidad p) (precio p).

(** A row as Python's [==] sees it: of the floats other than NaN, [==]
    takes only zero and negative zero for equal. *)
Definition fila_py (f : Fila) : Fila :=
  mkFila (col_nombre f) (col_cantidad f) (real_almacenado (col_precio f)).

(** The cached objects stand for the rows of the table, id by id. *)
Definition espejo (m : gmap Z Producto) (t : gmap Z Fila) : Prop :=
  (fila_py ∘ fila_de) <$> m = fila_py <$> t.

(** Every object sits under its own id. *)
Definition ids_ok (m : gmap Z Producto) : Prop :=
  ∀ k p, m !! k = Some p → id p = Some k.

(** The name index holds [i] under [k] exactly when the object under [i]
    has a name that normalizes to [k]. *)
Definition idx_ok (m : gmap Z Producto) (idx : gmap string (gset Z)) : Prop :=
  ∀ k i, en_idx idx k i ↔ ∃ p, m !! i = Some p ∧ _normaliza (nombre p) = k.

Record Inv (self : Inventario) : Prop := mkInv {
  inv_nodup : NoDup (_productos_por_id self).*1;
  inv_ids : ids_ok (vista (_productos_por_id self));
  inv_espejo : espejo (vista (_productos_por_id self)) (productos (conn self));
  inv_idx : idx_ok (vista (_productos_por_id self)) (_nombre_idx self);
  inv_vacios : sin_vacios (_nombre_idx self)
}.

(** [self] with its connection replaced: what a call to [execute] leaves. *)
Definition con_conn (c : Conexion) (self : Inventario) : Inventario :=
  {| conn := c;
     _productos_por_id := _productos_por_id self;
     _nombre_idx := _nombre_idx self |}.

(** The object [_cargar_desde_db] makes from a fetched row. *)
Definition producto_de (row : Z * Fila) : Producto :=
  mkProducto (Some row.1) (col_nombre row.2) (col_cantidad row.2) (col_precio row.2).

(** The loop of [_cargar_desde_db] over the fetched rows. *)
Definition cargar (rows : list (Z * Fila)) (self : Inventario) : Inventario :=
  foldl (λ self row, _indexar (producto_de row) self) self rows.

(** The records the cache holds, as [to_tuple] gives them. *)
Definition registros (self : Inventario) : list (option Z * string * Z * float) :=
  to_tuple <$> dict_values (_productos_por_id self).

(** The rows of the table as (id, nombre, cantidad, precio). *)
Definition filas_tabla (c : Conexion) : list (option Z * string * Z * float) :=
  (λ row, (Some row.1, col_nombre row.2, col_cantidad row.2, col_precio row.2))
    <$> fetchall c.

(** A record as Python's [==] sees it (see [fila_py]). *)
Definition tupla_py (t : option Z * string * Z * float)
    : option Z * string * Z * float :=
  (t.1.1.1, t.1.1.2, t.1.2, real_almacenado t.2).

(** The set the name index holds under the normalized query, empty when
    the key is absent: [self._nombre_idx.get(q, set())]. *)
Definition conjunto_exacto (self : Inventario) (consulta : string) : gset Z :=
  default ∅ (_nombre_idx self !! _normaliza consulta).

(** The first loop of [buscar_por_nombre] when no subscript raises: the
    object under each id of the set. *)
Definition exactos (self : Inventario) (consulta : string) : list Producto :=
  omap (dict_get (_productos_por_id self))
       (elements (conjunto_exacto self consulta)).

(** The full scan of [buscar_por_nombre]: every object whose normalized
    name contains the normalized query. *)
Definition por_subcadena (self : Inventario) (consulta : string) : list Producto :=
  List.filter (λ p, Str.contains (_normaliza consulta) (_normaliza (nombre p)))
              (dict_values (_productos_por_id self)).


(** Every rowid of the table is a 64-bit integer. *)
Definition db_valida (c : Conexion) : Prop :=
  ∀ k, is_Some (productos c !! k) → cabe_int64 k = true.

(** [p] comes before [q] in ascending order of id. *)
Definition menor_id (p q : Producto) : Prop :=
  match id p, id q with
  | Some i, Some j => i < j
  | _, _ => False
  end.


(** The exception a call raised, when it raised one. *)
Definition lanzada (self : Inventario) (op : Operacion) : option Excepcion :=
  let excepcion {A} (r : Excepcion + A) :=
    match r with inl e => Some e | inr _ => None end in
  match op with
  | Anadir n c pr => excepcion (anadir_producto n c pr self).1
  | Eliminar i => excepcion (eliminar_producto i self).1
  | ActualizarCantidad i c => excepcion (actualizar_cantidad i c self).1
  | ActualizarPrecio i pr => excepcion (actualizar_precio i pr self).1
  | ActualizarNombre i n => excepcion (actualizar_nombre i n self).1
  end.

(** A layer over a new database after one call: it holds the object of
    id 1, named Pen. *)
Definition ejemplo_pen : Inventario :=
  ejecutar [Anadir "Pen" 3 1.5%float] (__init__ db_nueva).

(** ** The setters of [Producto] *)

(** [Producto.set_cantidad]: the argument is an int by its type, so the
    test is the one on its sign. *)
Definition Producto_set_cantidad (nueva_cantidad : Z) (p : Producto)
    : Excepcion + Producto :=
  if nueva_cantidad <? 0 then inl ValueError
  else inr (set_cantidad nueva_cantidad p).

(** [Producto.set_precio] *)
Definition Producto_set_precio (nuevo_precio : float) (p : Producto)
    : Excepcion + Producto :=
  if PrimFloat.ltb nuevo_precio 0%float then inl ValueError
  else inr (set_precio nuevo_precio p).

(** What a read returns, the unchanged object left out. *)
Definition valor {A} (r : (Excepcion + A) * Inventario) : Excepcion + A := r.1.


(** The constraints of the table, [CHECK (cantidad >= 0)] and
    [CHECK (precio >= 0)], on a cached object and on the rows of a table. *)
Definition no_negativo (p : Producto) : Prop :=
  0 ≤ cantidad p ∧ PrimFloat.leb 0%float (precio p) = true.

Definition tabla_no_negativa (c : Conexion) : Prop :=
  ∀ k f, productos c !! k = Some f →
         0 ≤ col_cantidad f ∧ PrimFloat.leb 0%float (col_precio f) = true.

(** The statements a call hands to [execute]: one when the arguments pass
    the tests of the method and the id, if any, is held; none otherwise. *)
Definition sentencias_de (self : Inventario) (op : Operacion) : list Sentencia :=
  let presente i := bool_decide (is_Some (dict_get (_productos_por_id self) i)) in
  match op with
  | Anadir n cant pr =>
      if (cant <? 0) || PrimFloat.ltb pr 0%float then []
      else [INSERT (Str.strip n) cant pr]
  | Eliminar i => if presente i then [DELETE i] else []
  | ActualizarCantidad i cant =>
      if (cant <? 0) || negb (presente i) then [] else [UPDATE_cantidad cant i]
  | ActualizarPrecio i pr =>
      if PrimFloat.ltb pr 0%float || negb (presente i) then []
      else [UPDATE_precio pr i]
  | ActualizarNombre i n =>
      if presente i then [UPDATE_nombre (Str.strip n) i] else []
  end.

(** * Properties *)

(** ** Strings *)

Module StrFacts.
Import Str.

Lemma rstrip_idemp s : rstrip (rstrip s) = rstrip s.
Proof.
  induction s as [|c s IH]; [done|]. simpl.
  destruct (rstrip s) as [|c' r] eqn:E.
  - destruct (isspace c) eqn:Hc; simpl; [done|]. by rewrite Hc.
  - change (rstrip (String c (String c' r))) with
      (match rstrip (String c' r) with
       | EmptyString => if isspace c then EmptyString else String c EmptyString
       | r' => String c r'
       end).
    by rewrite IH.
Qed.

Lemma lstrip_head s :
  lstrip s = EmptyString ∨ ∃ c r, lstrip s = String c r ∧ isspace c = false.
Proof.
  induction s as [|c s IH]; [by left|]. simpl.
  destruct (isspace c) eqn:Hc; [done|]. right. by exists c, s.
Qed.

Lemma rstrip_head c s :
  isspace c = false → ∃ r, rstrip (String c s) = String c r.
Proof.
  intros Hc. simpl. destruct (rstrip s); rewrite ?Hc; eauto.
Qed.

Lemma strip_idemp s : strip (strip s) = strip s.
Proof.
  unfold strip.
  destruct (lstrip_head s) as [->|(c & r & -> & Hc)]; [done|].
  destruct (rstrip_head c r Hc) as [r' Hr]. rewrite Hr.
  assert (lstrip (String c r') = String c r') as -> by (simpl; by rewrite Hc).
  rewrite <- Hr. apply rstrip_idemp.
Qed.

Lemma lstrip_blank s : blank s = true → lstrip s = EmptyString.
Proof.
  induction s as [|c s IH]; [done|]. simpl.
  intros [Hc Hs]%andb_prop. rewrite Hc. auto.
Qed.

Lemma strip_blank s : blank s = true → strip s = EmptyString.
Proof. intros H. unfold strip. by rewrite lstrip_blank. Qed.

Lemma prefix_empty s : String.prefix EmptyString s = true.
Proof. by destruct s. Qed.

Lemma contains_empty s : contains EmptyString s = true.
Proof. destruct s; simpl; by rewrite ?prefix_empty. Qed.

End StrFacts.

Lemma _normaliza_strip s : _normaliza (Str.strip s) = _normaliza s.
Proof. unfold _normaliza. by rewrite StrFacts.strip_idemp. Qed.

Lemma _normaliza_blank s : Str.blank s = true → _normaliza s = EmptyString.
Proof. intros H. unfold _normaliza. by rewrite StrFacts.strip_blank. Qed.

(** ** Dicts: the finite map a dict denotes *)

Section DictFacts.
Context {V : Type}.
Implicit Types (d : list (Z * V)) (k : Z) (v : V).

Lemma dict_get_vista d k : dict_get d k = vista d !! k.
Proof.
  unfold vista. induction d as [|[k' v] d IH]; simpl; [done|].
  case_decide; subst.
  - by rewrite lookup_insert_eq.
  - by rewrite lookup_insert_ne.
Qed.

Lemma vista_set d k v : vista (dict_set d k v) = <[k := v]> (vista d).
Proof.
  unfold vista. induction d as [|[k' v'] d IH]; simpl; [done|].
  case_decide; subst; simpl.
  - by rewrite insert_insert_eq.
  - rewrite IH. by apply insert_insert_ne.
Qed.

Lemma elem_of_keys_set d k v x :
  x ∈ (dict_set d k v).*1 ↔ x = k ∨ x ∈ d.*1.
Proof.
  induction d as [|[k' v'] d IH]; simpl.
  - rewrite list_elem_of_singleton, elem_of_nil. naive_solver.
  - case_decide; subst; simpl; rewrite !elem_of_cons; naive_solver.
Qed.

Lemma NoDup_keys_set d k v : NoDup d.*1 → NoDup (dict_set d k v).*1.
Proof.
  induction d as [|[k' v'] d IH]; simpl; intros Hnd.
  - apply NoDup_singleton.
  - apply NoDup_cons in Hnd as [Hk' Hnd].
    case_decide; subst; simpl; apply NoDup_cons; split; auto.
    rewrite elem_of_keys_set. naive_solver.
Qed.

Lemma elem_of_keys_pop d k x : x ∈ (dict_pop d k).*1 → x ∈ d.*1.
Proof.
  induction d as [|[k' v'] d IH]; simpl; [done|].
  case_decide; subst; simpl; rewrite !elem_of_cons; naive_solver.
Qed.

Lemma NoDup_keys_pop d k : NoDup d.*1 → NoDup (dict_pop d k).*1.
Proof.
  induction d as [|[k' v'] d IH]; simpl; intros Hnd; [done|].
  apply NoDup_cons in Hnd as [Hk' Hnd].
  case_decide; subst; simpl; [done|].
  apply NoDup_cons; split; auto.
  intros Hin. apply Hk'. by apply elem_of_keys_pop in Hin.
Qed.

Lemma vista_pop d k : NoDup d.*1 → vista (dict_pop d k) = delete k (vista d).
Proof.
  unfold vista. induction d as [|[k' v'] d IH]; simpl; intros Hnd.
  - by rewrite delete_empty.
  - apply NoDup_cons in Hnd as [Hk' Hnd].
    case_decide; subst; simpl.
    + rewrite delete_insert_eq. symmetry. apply delete_id.
      by apply not_elem_of_list_to_map_1.
    + rewrite IH by done. by rewrite delete_insert_ne.
Qed.

Lemma elem_of_values d v :
  NoDup d.*1 → v ∈ dict_values d ↔ ∃ k, vista d !! k = Some v.
Proof.
  intros Hnd. unfold dict_values, vista. rewrite list_elem_of_fmap. split.
  - intros ([k v'] & -> & Hin). exists k. by apply elem_of_list_to_map.
  - intros [k Hk]. exists (k, v). split; [done|].
    by apply elem_of_list_to_map.
Qed.

End DictFacts.

(** ** The name index *)

Section IdxFacts.
Implicit Types (idx : gmap string (gset Z)) (k : string) (i : Z).

Lemma alter_anotar k i idx :
  alter (λ s, s ∪ {[i]}) k
    (match idx !! k with None => <[k := ∅]> idx | Some _ => idx end)
  = anotar k i idx.
Proof.
  unfold anotar. apply map_eq. intros k'.
  destruct (decide (k = k')) as [<-|Hne].
  - rewrite lookup_alter_eq, lookup_insert_eq.
    destruct (idx !! k) as [s|] eqn:E; simpl.
    + by rewrite E.
    + by rewrite lookup_insert_eq.
  - rewrite lookup_alter_ne, lookup_insert_ne by done.
    destruct (idx !! k); [done|]. by rewrite lookup_insert_ne.
Qed.

Lemma en_idx_anotar idx k i k' i' :
  en_idx (anotar k i idx) k' i' ↔ en_idx idx k' i' ∨ (k' = k ∧ i' = i).
Proof.
  unfold en_idx, anotar. destruct (decide (k = k')) as [<-|Hne].
  - rewrite lookup_insert_eq. split.
    + intros (s & [= <-] & Hin). apply elem_of_union in Hin as [Hin|Hin].
      * left. destruct (idx !! k) as [s|]; simpl in Hin; [eauto|].
        by apply not_elem_of_empty in Hin.
      * apply elem_of_singleton in Hin. by right.
    + intros [(s & Hs & Hin)|[_ ->]]; eexists; (split; [done|]).
      * rewrite Hs. simpl. apply elem_of_union. by left.
      * apply elem_of_union. right. by apply elem_of_singleton.
  - rewrite lookup_insert_ne by done. naive_solver.
Qed.

Lemma sin_vacios_anotar idx k i : sin_vacios idx → sin_vacios (anotar k i idx).
Proof.
  intros Hv k' s. unfold anotar.
  destruct (decide (k = k')) as [<-|Hne].
  - rewrite lookup_insert_eq. intros [= <-] He.
    assert (i ∈ (∅ : gset Z)) as Hi; [|by apply not_elem_of_empty in Hi].
    rewrite <- He. apply elem_of_union. right. by apply elem_of_singleton.
  - rewrite lookup_insert_ne by done. apply Hv.
Qed.

Lemma en_idx_descartar idx k i k' i' :
  en_idx (descartar k i idx) k' i' ↔ en_idx idx k' i' ∧ ¬ (k' = k ∧ i' = i).
Proof.
  unfold en_idx, descartar. destruct (idx !! k) as [s|] eqn:E.
  - destruct (decide (k = k')) as [<-|Hne].
    + case_decide as He.
      * rewrite lookup_delete_eq. split; [naive_solver|].
        intros [(s' & Hs' & Hin) Hno]. rewrite E in Hs'. injection Hs' as <-.
        assert (i' ∈ s ∖ {[i]}) as Hd.
        { apply elem_of_difference. split; [done|].
          rewrite elem_of_singleton. naive_solver. }
        rewrite He in Hd. by apply not_elem_of_empty in Hd.
      * rewrite lookup_insert_eq. split.
        -- intros (? & [= <-] & [Hin Hni]%elem_of_difference).
           rewrite elem_of_singleton in Hni. naive_solver.
        -- intros [(s' & Hs' & Hin) Hno]. rewrite E in Hs'. injection Hs' as <-.
           eexists. split; [done|]. apply elem_of_difference. split; [done|].
           rewrite elem_of_singleton. naive_solver.
    + case_decide.
      * rewrite lookup_delete_ne, lookup_insert_ne by done. naive_solver.
      * rewrite lookup_insert_ne by done. naive_solver.
  - split; [|naive_solver]. intros (s & Hs & Hin). split; [eauto|].
    intros [-> _]. congruence.
Qed.

Lemma sin_vacios_descartar idx k i : sin_vacios idx → sin_vacios (descartar k i idx).
Proof.
  intros Hv k' s. unfold descartar. destruct (idx !! k) as [s0|] eqn:E; [|apply Hv].
  case_decide as He.
  - destruct (decide (k = k')) as [<-|Hne].
    + by rewrite lookup_delete_eq.
    + rewrite lookup_delete_ne, lookup_insert_ne by done. apply Hv.
  - destruct (decide (k = k')) as [<-|Hne].
    + rewrite lookup_insert_eq. by intros [= <-].
    + rewrite lookup_insert_ne by done. apply Hv.
Qed.

Lemma sin_vacios_empty : sin_vacios ∅.
Proof. intros k s. by rewrite lookup_empty. Qed.

End IdxFacts.

(** ** The connection *)

Section ConexionFacts.
Implicit Types (c : Conexion) (t : gmap Z Fila).

Lemma foldr_max_ge (l : list Z) k : k ∈ l → k ≤ foldr Z.max 0 l.
Proof.
  induction l as [|x l IH]; simpl.
  - by intros ?%elem_of_nil.
  - intros [->|Hin]%elem_of_cons; [lia|]. specialize (IH Hin). lia.
Qed.

Lemma foldr_max_nonneg (l : list Z) : 0 ≤ foldr Z.max 0 l.
Proof. induction l; simpl; lia. Qed.

Lemma max_rowid_ge t k f : t !! k = Some f → k ≤ max_rowid t.
Proof.
  intros H. apply foldr_max_ge, list_elem_of_fmap.
  exists (k, f). split; [done|]. by apply elem_of_map_to_list.
Qed.

(** The rowid of the next row is not a rowid of the table, and is positive. *)
Lemma siguiente_rowid_fresh c : productos c !! siguiente_rowid c = None.
Proof.
  destruct (productos c !! siguiente_rowid c) as [f|] eqn:E; [|done].
  apply max_rowid_ge in E. unfold siguiente_rowid in E. lia.
Qed.

Lemma siguiente_rowid_pos c : 1 ≤ siguiente_rowid c.
Proof.
  unfold siguiente_rowid, max_rowid.
  pose proof (foldr_max_nonneg (map_to_list (productos c)).*1). lia.
Qed.

(** A statement that raises changes no row. *)
Lemma execute_error s c e c' :
  execute s c = (inl e, c') →
  productos c' = productos c ∧ sqlite_sequence c' = sqlite_sequence c
  ∧ llamadas c' = llamadas c ++ [s].
Proof.
  unfold execute, aplicar, con_tabla. intros H.
  repeat case_match; simplify_eq; done.
Qed.

Lemma execute_llamadas s c : llamadas (execute s c).2 = llamadas c ++ [s].
Proof.
  unfold execute, aplicar, con_tabla. repeat case_match; done.
Qed.

Lemma execute_INSERT n cant pr c i c' :
  execute (INSERT n cant pr) c = (inr i, c') →
  productos c' = <[i := mkFila n cant (real_almacenado pr)]> (productos c)
  ∧ productos c !! i = None ∧ 1 ≤ i ≤ INT64_MAX
  ∧ 0 ≤ cant ∧ check_precio pr = true.
Proof.
  unfold execute, aplicar. intros H.
  repeat case_match; simplify_eq. simpl.
  repeat match goal with
         | H : negb _ = false |- _ => apply negb_false_iff in H
         | H : _ && _ = true |- _ => apply andb_prop in H as [? ?]
         end.
  split_and!; try done.
  - apply (siguiente_rowid_fresh (mkConexion _ _ _)).
  - apply (siguiente_rowid_pos (mkConexion _ _ _)).
  - lia.
  - unfold check_cantidad in *. lia.
Qed.

Lemma execute_DELETE i c r c' :
  execute (DELETE i) c = (inr r, c') →
  productos c' = delete i (productos c) ∧ cabe_int64 i = true.
Proof.
  unfold execute, aplicar, con_tabla. intros H.
  repeat case_match; simplify_eq. simpl. split; [done|].
  by apply negb_false_iff.
Qed.

Lemma execute_UPDATE_cantidad cant i c r c' :
  execute (UPDATE_cantidad cant i) c = (inr r, c') →
  productos c' =
    alter (λ f, mkFila (col_nombre f) cant (col_precio f)) i (productos c).
Proof.
  unfold execute, aplicar, con_tabla. intros H.
  repeat case_match; simplify_eq; simpl in *; apply map_eq; intros k;
    (destruct (decide (i = k)) as [<-|Hne];
     [rewrite lookup_alter_eq|rewrite lookup_alter_ne by done]);
    rewrite ?lookup_insert_eq, ?lookup_insert_ne by done;
    try done; by simplify_option_eq.
Qed.

Lemma execute_UPDATE_precio pr i c r c' :
  execute (UPDATE_precio pr i) c = (inr r, c') →
  productos c' =
    alter (λ f, mkFila (col_nombre f) (col_cantidad f) (real_almacenado pr)) i
          (productos c).
Proof.
  unfold execute, aplicar, con_tabla. intros H.
  repeat case_match; simplify_eq; simpl in *; apply map_eq; intros k;
    (destruct (decide (i = k)) as [<-|Hne];
     [rewrite lookup_alter_eq|rewrite lookup_alter_ne by done]);
    rewrite ?lookup_insert_eq, ?lookup_insert_ne by done;
    try done; by simplify_option_eq.
Qed.

Lemma execute_UPDATE_nombre n i c r c' :
  execute (UPDATE_nombre n i) c = (inr r, c') →
  productos c' =
    alter (λ f, mkFila n (col_cantidad f) (col_precio f)) i (productos c).
Proof.
  unfold execute, aplicar, con_tabla. intros H.
  repeat case_match; simplify_eq; simpl in *; apply map_eq; intros k;
    (destruct (decide (i = k)) as [<-|Hne];
     [rewrite lookup_alter_eq|rewrite lookup_alter_ne by done]);
    rewrite ?lookup_insert_eq, ?lookup_insert_ne by done;
    try done; by simplify_option_eq.
Qed.

End ConexionFacts.

(** ** The invariant that ties the cache to the table *)

Section InvFacts.
Implicit Types (m : gmap Z Producto) (idx : gmap string (gset Z)).

Lemma ids_ok_insert m i p : ids_ok m → id p = Some i → ids_ok (<[i := p]> m).
Proof.
  intros Hm Hp k q. destruct (decide (i = k)) as [<-|Hne].
  - rewrite lookup_insert_eq. by intros [= <-].
  - rewrite lookup_insert_ne by done. apply Hm.
Qed.

Lemma ids_ok_delete m i : ids_ok m → ids_ok (delete i m).
Proof.
  intros Hm k q. destruct (decide (i = k)) as [<-|Hne].
  - by rewrite lookup_delete_eq.
  - rewrite lookup_delete_ne by done. apply Hm.
Qed.

Lemma idx_ok_add m idx i p :
  idx_ok m idx → m !! i = None →
  idx_ok (<[i := p]> m) (anotar (_normaliza (nombre p)) i idx).
Proof.
  unfold idx_ok. intros Hok Hfresh k j. rewrite en_idx_anotar, Hok.
  destruct (decide (i = j)) as [<-|Hne].
  - rewrite lookup_insert_eq, Hfresh. naive_solver.
  - rewrite lookup_insert_ne by done. naive_solver.
Qed.

Lemma idx_ok_del m idx i p :
  idx_ok m idx → m !! i = Some p →
  idx_ok (delete i m) (descartar (_normaliza (nombre p)) i idx).
Proof.
  unfold idx_ok. intros Hok Hp k j. rewrite en_idx_descartar, Hok.
  destruct (decide (i = j)) as [<-|Hne].
  - rewrite lookup_delete_eq, Hp. naive_solver.
  - rewrite lookup_delete_ne by done. naive_solver.
Qed.

Lemma idx_ok_rename m idx i p p' :
  idx_ok m idx → m !! i = Some p →
  idx_ok (<[i := p']> m)
    (anotar (_normaliza (nombre p')) i (descartar (_normaliza (nombre p)) i idx)).
Proof.
  unfold idx_ok. intros Hok Hp k j. rewrite en_idx_anotar, en_idx_descartar, Hok.
  destruct (decide (i = j)) as [<-|Hne].
  - rewrite lookup_insert_eq, Hp. naive_solver.
  - rewrite lookup_insert_ne by done. naive_solver.
Qed.

Lemma idx_ok_same m idx i p p' :
  idx_ok m idx → m !! i = Some p → nombre p' = nombre p →
  idx_ok (<[i := p']> m) idx.
Proof.
  unfold idx_ok. intros Hok Hp Hn k j. rewrite Hok.
  destruct (decide (i = j)) as [<-|Hne].
  - rewrite lookup_insert_eq, Hp. split; intros (q & [= <-] & Hq); eexists;
      (split; [done|]); congruence.
  - by rewrite lookup_insert_ne.
Qed.

Lemma idx_ok_empty : idx_ok ∅ ∅.
Proof.
  intros k i. unfold en_idx. setoid_rewrite lookup_empty. naive_solver.
Qed.

Lemma real_almacenado_idemp pr :
  real_almacenado (real_almacenado pr) = real_almacenado pr.
Proof.
  unfold real_almacenado. destruct (PrimFloat.eqb pr 0%float) eqn:E; [done|].
  by rewrite E.
Qed.

Lemma espejo_lookup m (t : gmap Z Fila) i :
  espejo m t → fila_py ∘ fila_de <$> m !! i = fila_py <$> t !! i.
Proof. unfold espejo. intros H. by rewrite <- !lookup_fmap, H. Qed.

(** A row that the table lacks is not cached. *)
Lemma espejo_None m (t : gmap Z Fila) i : espejo m t → t !! i = None → m !! i = None.
Proof.
  intros He Hi. apply (espejo_lookup _ _ i) in He. rewrite Hi in He.
  by apply fmap_None in He.
Qed.

(** A cached object has its row. *)
Lemma espejo_Some m (t : gmap Z Fila) i p :
  espejo m t → m !! i = Some p →
  ∃ f, t !! i = Some f ∧ fila_py f = fila_py (fila_de p).
Proof.
  intros He Hp. apply (espejo_lookup _ _ i) in He. rewrite Hp in He.
  symmetry in He. apply fmap_Some in He as (f & Hf & Heq). by exists f.
Qed.

Lemma espejo_insert m (t : gmap Z Fila) i p f :
  espejo m t → fila_py (fila_de p) = fila_py f →
  espejo (<[i := p]> m) (<[i := f]> t).
Proof.
  unfold espejo. intros He Hf. rewrite !fmap_insert. simpl. by rewrite He, Hf.
Qed.

Lemma espejo_delete m (t : gmap Z Fila) i :
  espejo m t → espejo (delete i m) (delete i t).
Proof. unfold espejo. intros He. by rewrite !fmap_delete, He. Qed.

(** An UPDATE of the row and the same change of the cached object. *)
Lemma espejo_update m (t : gmap Z Fila) i p p' (h : Fila → Fila) :
  espejo m t → m !! i = Some p →
  (∀ f, fila_py f = fila_py (fila_de p) → fila_py (h f) = fila_py (fila_de p')) →
  espejo (<[i := p']> m) (alter h i t).
Proof.
  intros He Hp Hh. destruct (espejo_Some _ _ _ _ He Hp) as (f & Hf & Heq).
  unfold espejo. apply map_eq. intros k. rewrite !lookup_fmap.
  destruct (decide (i = k)) as [<-|Hne].
  - rewrite lookup_insert_eq, lookup_alter_eq, Hf. simpl. f_equal.
    symmetry. by apply Hh.
  - rewrite lookup_insert_ne, lookup_alter_ne by done.
    apply (espejo_lookup _ _ k He).
Qed.

Lemma espejo_empty : espejo ∅ ∅.
Proof. unfold espejo. by rewrite !fmap_empty. Qed.

End InvFacts.

Arguments execute : simpl never.

(** Unfold the combinators a method body is written with. *)
Ltac desplegar :=
  unfold luego, leer, mutar, mutar_objeto, devolver, raise,
    conn_execute, conn_commit in *; simpl in *.

(** ** What the index methods do to the two structures *)

Lemma _indexar_Some p i self :
  id p = Some i →
  _indexar p self =
    {| conn := conn self;
       _productos_por_id := dict_set (_productos_por_id self) i p;
       _nombre_idx := anotar (_normaliza (nombre p)) i (_nombre_idx self) |}.
Proof. intros Hi. unfold _indexar. rewrite Hi. by rewrite alter_anotar. Qed.

Lemma _reindexar_nombre_Some p anterior i self :
  id p = Some i →
  _reindexar_nombre p anterior self =
    {| conn := conn self;
       _productos_por_id := dict_set (_productos_por_id self) i p;
       _nombre_idx := anotar (_normaliza (nombre p)) i
                        (descartar (_normaliza anterior) i (_nombre_idx self)) |}.
Proof.
  intros Hi. unfold _reindexar_nombre. rewrite Hi.
  by rewrite (_indexar_Some p i).
Qed.

(** ** The CRUD methods in closed form *)

Lemma anadir_producto_eq n c pr self :
  anadir_producto n c pr self =
    if (c <? 0) || PrimFloat.ltb pr 0%float then (inl ValueError, self)
    else match execute (INSERT (Str.strip n) c pr) (conn self) with
         | (inl e, c') => (inl e, con_conn c' self)
         | (inr i, c') =>
             let p := mkProducto (Some i) (Str.strip n) c pr in
             (inr p, _indexar p (con_conn c' self))
         end.
Proof.
  unfold anadir_producto. destruct ((c <? 0) || PrimFloat.ltb pr 0%float); [done|].
  desplegar. by destruct (execute _ _) as [[e|i] c'].
Qed.

Lemma eliminar_producto_eq i self :
  eliminar_producto i self =
    match dict_get (_productos_por_id self) i with
    | None => (inr false, self)
    | Some p =>
        match execute (DELETE i) (conn self) with
        | (inl e, c') => (inl e, con_conn c' self)
        | (inr _, c') => (inr true, _desindexar p (con_conn c' self))
        end
    end.
Proof.
  unfold eliminar_producto. desplegar.
  destruct (dict_get _ _); [|done]. by destruct (execute _ _) as [[e|r] c'].
Qed.

Lemma actualizar_cantidad_eq i c self :
  actualizar_cantidad i c self =
    if c <? 0 then (inl ValueError, self)
    else match dict_get (_productos_por_id self) i with
         | None => (inr false, self)
         | Some p =>
             match execute (UPDATE_cantidad c i) (conn self) with
             | (inl e, c') => (inl e, con_conn c' self)
             | (inr _, c') =>
                 (inr true,
                  {| conn := c';
                     _productos_por_id :=
                       dict_set (_productos_por_id self) i (set_cantidad c p);
                     _nombre_idx := _nombre_idx self |})
             end
         end.
Proof.
  unfold actualizar_cantidad. destruct (c <? 0) eqn:Hc; [done|]. desplegar.
  destruct (dict_get _ _); [|done]. by destruct (execute _ _) as [[e|r] c'].
Qed.

Lemma actualizar_precio_eq i pr self :
  actualizar_precio i pr self =
    if PrimFloat.ltb pr 0%float then (inl ValueError, self)
    else match dict_get (_productos_por_id self) i with
         | None => (inr false, self)
         | Some p =>
             match execute (UPDATE_precio pr i) (conn self) with
             | (inl e, c') => (inl e, con_conn c' self)
             | (inr _, c') =>
                 (inr true,
                  {| conn := c';
                     _productos_por_id :=
                       dict_set (_productos_por_id self) i (set_precio pr p);
                     _nombre_idx := _nombre_idx self |})
             end
         end.
Proof.
  unfold actualizar_precio. destruct (PrimFloat.ltb pr 0%float) eqn:Hc; [done|].
  desplegar.
  destruct (dict_get _ _); [|done]. by destruct (execute _ _) as [[e|r] c'].
Qed.

Lemma actualizar_nombre_eq i n self :
  actualizar_nombre i n self =
    match dict_get (_productos_por_id self) i with
    | None => (inr false, self)
    | Some p =>
        match execute (UPDATE_nombre (Str.strip n) i) (conn self) with
        | (inl e, c') => (inl e, con_conn c' self)
        | (inr _, c') =>
            let p' := set_nombre (Str.strip n) p in
            (inr true,
             _reindexar_nombre p' (nombre p)
               {| conn := c';
                  _productos_por_id := dict_set (_productos_por_id self) i p';
                  _nombre_idx := _nombre_idx self |})
        end
    end.
Proof.
  unfold actualizar_nombre. desplegar.
  destruct (dict_get _ _); [|done]. by destruct (execute _ _) as [[e|r] c'].
Qed.

(** ** Every mutating call keeps the invariant *)

Lemma Inv_con_conn self c' :
  Inv self → productos c' = productos (conn self) → Inv (con_conn c' self).
Proof. intros [] Hc. constructor; simpl; try done. by rewrite Hc. Qed.

Lemma Inv_anadir_producto n c pr self :
  Inv self → Inv (anadir_producto n c pr self).2.
Proof.
  intros HI. rewrite anadir_producto_eq.
  destruct ((c <? 0) || PrimFloat.ltb pr 0%float); [done|].
  destruct (execute _ _) as [[e|i] c'] eqn:E; simpl.
  - apply Inv_con_conn; [done|]. by apply execute_error in E as [? _].
  - apply execute_INSERT in E as (Ht & Hfresh & _).
    rewrite (_indexar_Some _ i) by done. destruct HI. simpl.
    assert (vista (_productos_por_id self) !! i = None) as Hi
      by (by eapply espejo_None).
    constructor; simpl; rewrite ?vista_set.
    + by apply NoDup_keys_set.
    + by apply ids_ok_insert.
    + rewrite Ht. apply espejo_insert; [done|].
      unfold fila_py, fila_de. simpl. by rewrite real_almacenado_idemp.
    + by apply (idx_ok_add _ _ _ (mkProducto _ _ _ _)).
    + by apply sin_vacios_anotar.
Qed.

Lemma Inv_eliminar_producto i self :
  Inv self → Inv (eliminar_producto i self).2.
Proof.
  intros HI. rewrite eliminar_producto_eq.
  destruct (dict_get _ _) as [p|] eqn:Hp; [|done].
  rewrite dict_get_vista in Hp.
  destruct (execute _ _) as [[e|r] c'] eqn:E; simpl.
  - apply Inv_con_conn; [done|]. by apply execute_error in E as [? _].
  - apply execute_DELETE in E as [Ht _]. destruct HI.
    unfold _desindexar. rewrite (inv_ids0 _ _ Hp). simpl.
    constructor; simpl; rewrite ?vista_pop by done.
    + by apply NoDup_keys_pop.
    + by apply ids_ok_delete.
    + rewrite Ht. by apply espejo_delete.
    + by apply idx_ok_del.
    + by apply sin_vacios_descartar.
Qed.

Lemma Inv_actualizar_cantidad i c self :
  Inv self → Inv (actualizar_cantidad i c self).2.
Proof.
  intros HI. rewrite actualizar_cantidad_eq.
  destruct (c <? 0); [done|].
  destruct (dict_get _ _) as [p|] eqn:Hp; [|done].
  rewrite dict_get_vista in Hp.
  destruct (execute _ _) as [[e|r] c'] eqn:E; simpl.
  - apply Inv_con_conn; [done|]. by apply execute_error in E as [? _].
  - apply execute_UPDATE_cantidad in E as Ht. destruct HI.
    constructor; simpl; rewrite ?vista_set.
    + by apply NoDup_keys_set.
    + apply ids_ok_insert; [done|]. by apply (inv_ids0 i p).
    + rewrite Ht. apply (espejo_update _ _ _ p); [done..|].
      unfold fila_py, fila_de. simpl. intros f [= Hn Hq Hpr].
      by rewrite ?Hn, ?Hq, ?Hpr, ?real_almacenado_idemp.
    + by apply (idx_ok_same _ _ _ p).
    + done.
Qed.

Lemma Inv_actualizar_precio i pr self :
  Inv self → Inv (actualizar_precio i pr self).2.
Proof.
  intros HI. rewrite actualizar_precio_eq.
  destruct (PrimFloat.ltb pr 0%float); [done|].
  destruct (dict_get _ _) as [p|] eqn:Hp; [|done].
  rewrite dict_get_vista in Hp.
  destruct (execute _ _) as [[e|r] c'] eqn:E; simpl.
  - apply Inv_con_conn; [done|]. by apply execute_error in E as [? _].
  - apply execute_UPDATE_precio in E as Ht. destruct HI.
    constructor; simpl; rewrite ?vista_set.
    + by apply NoDup_keys_set.
    + apply ids_ok_insert; [done|]. by apply (inv_ids0 i p).
    + rewrite Ht. apply (espejo_update _ _ _ p); [done..|].
      unfold fila_py, fila_de. simpl. intros f [= Hn Hq Hpr].
      by rewrite ?Hn, ?Hq, ?Hpr, ?real_almacenado_idemp.
    + by apply (idx_ok_same _ _ _ p).
    + done.
Qed.

Lemma Inv_actualizar_nombre i n self :
  Inv self → Inv (actualizar_nombre i n self).2.
Proof.
  intros HI. rewrite actualizar_nombre_eq.
  destruct (dict_get _ _) as [p|] eqn:Hp; [|done].
  rewrite dict_get_vista in Hp.
  destruct (execute _ _) as [[e|r] c'] eqn:E; simpl.
  - apply Inv_con_conn; [done|]. by apply execute_error in E as [? _].
  - apply execute_UPDATE_nombre in E as Ht. destruct HI.
    rewrite (_reindexar_nombre_Some _ _ i) by (by apply (inv_ids0 i p)).
    constructor; simpl; rewrite ?vista_set, ?insert_insert_eq.
    + by do 2 apply NoDup_keys_set.
    + apply ids_ok_insert; [done|]. by apply (inv_ids0 i p).
    + rewrite Ht. apply (espejo_update _ _ _ p); [done..|].
      unfold fila_py, fila_de. simpl. intros f [= Hn Hq Hpr].
      by rewrite ?Hn, ?Hq, ?Hpr, ?real_almacenado_idemp.
    + by apply (idx_ok_rename _ _ _ p (set_nombre _ p)).
    + by apply sin_vacios_anotar, sin_vacios_descartar.
Qed.

Lemma Inv_paso self op : Inv self → Inv (paso self op).
Proof.
  destruct op; simpl.
  - apply Inv_anadir_producto.
  - apply Inv_eliminar_producto.
  - apply Inv_actualizar_cantidad.
  - apply Inv_actualizar_precio.
  - apply Inv_actualizar_nombre.
Qed.

Lemma Inv_ejecutar ops self : Inv self → Inv (ejecutar ops self).
Proof.
  unfold ejecutar. revert self.
  induction ops as [|op ops IH]; intros self HI; simpl; [done|].
  by apply IH, Inv_paso.
Qed.

(** ** The rebuild establishes the invariant *)

Lemma _cargar_desde_db_eq self :
  _cargar_desde_db self =
    cargar (fetchall (conn self))
      {| conn := conn self; _productos_por_id := []; _nombre_idx := ∅ |}.
Proof. reflexivity. Qed.

Lemma Inv_ext self self' :
  Inv self →
  _productos_por_id self' = _productos_por_id self →
  _nombre_idx self' = _nombre_idx self →
  productos (conn self') = productos (conn self) →
  Inv self'.
Proof. intros [] Hd Hi Hc. constructor; rewrite ?Hd, ?Hi, ?Hc; done. Qed.

(** Indexing an object for a row the cache does not hold yet. *)
Lemma Inv_indexar p i self c' :
  Inv self → id p = Some i →
  productos (conn self) !! i = None →
  productos c' = <[i := fila_de p]> (productos (conn self)) →
  Inv (_indexar p (con_conn c' self)).
Proof.
  intros HI Hid Hfresh Ht. rewrite (_indexar_Some _ i) by done.
  destruct HI. simpl.
  assert (vista (_productos_por_id self) !! i = None) as Hi
    by (by eapply espejo_None).
  constructor; simpl; rewrite ?vista_set.
  - by apply NoDup_keys_set.
  - by apply ids_ok_insert.
  - rewrite Ht. by apply espejo_insert.
  - by apply idx_ok_add.
  - by apply sin_vacios_anotar.
Qed.

Lemma conn_indexar p self : conn (_indexar p self) = conn self.
Proof. unfold _indexar. by destruct (id p). Qed.

Lemma conn_cargar rows self : conn (cargar rows self) = conn self.
Proof.
  revert self. induction rows as [|row rows IH]; intros self; simpl; [done|].
  unfold cargar in *. simpl. by rewrite IH, conn_indexar.
Qed.

Lemma Inv_cargar rows : ∀ self c,
  NoDup rows.*1 →
  (∀ k, k ∈ rows.*1 → productos c !! k = None) →
  Inv (con_conn c self) →
  Inv (con_conn (con_tabla (list_to_map rows ∪ productos c) c) (cargar rows self)).
Proof.
  induction rows as [|[k f] rows IH]; intros self c Hnd Hfresh HI.
  - eapply Inv_ext; [exact HI|done..|]. simpl. by rewrite (left_id_L ∅ (∪)).
  - rewrite fmap_cons in Hnd, Hfresh. apply NoDup_cons in Hnd as [Hk Hnd].
    set (c1 := con_tabla (<[k := f]> (productos c)) c).
    set (self1 := _indexar (producto_de (k, f)) self).
    assert (Inv (con_conn c1 self1)) as HI1.
    { eapply Inv_ext;
        [apply (Inv_indexar (producto_de (k, f)) k (con_conn c self) c1);
         try done|done..].
      - apply Hfresh, elem_of_cons. by left.
      - by destruct f. }
    specialize (IH self1 c1 Hnd).
    eapply Inv_ext; [apply IH; [|exact HI1]|done..|].
    + intros k' Hk'. simpl. rewrite lookup_insert_ne by (intros ->; done).
      apply Hfresh, elem_of_cons. by right.
    + simpl. rewrite <- insert_union_r, insert_union_l; [done|].
      by apply not_elem_of_list_to_map_1.
Qed.

Lemma Inv__init__ c : Inv (__init__ c).
Proof.
  unfold __init__. rewrite _cargar_desde_db_eq. simpl.
  set (self0 := {| conn := c; _productos_por_id := []; _nombre_idx := ∅ |}).
  eapply Inv_ext;
    [apply (Inv_cargar (fetchall c) self0 (con_tabla ∅ c))|done..|].
  - apply NoDup_fst_map_to_list.
  - intros k _. apply lookup_empty.
  - constructor; simpl.
    + apply NoDup_nil_2.
    + intros k p. unfold vista. simpl. by rewrite lookup_empty.
    + apply espejo_empty.
    + apply idx_ok_empty.
    + apply sin_vacios_empty.
  - simpl. rewrite conn_cargar. simpl. unfold fetchall.
    by rewrite list_to_map_to_list, (right_id_L ∅ (∪)).
Qed.

(** The invariant holds after any sequence of calls on a rebuilt layer. *)
Lemma Inv_alcanzable c ops : Inv (ejecutar ops (__init__ c)).
Proof. apply Inv_ejecutar, Inv__init__. Qed.

(** ** Index/store convergence *)

(** No partial mutation: a call that raises, in the class or in [execute],
    leaves the table and both indexes as they were. *)
Lemma sin_mutacion_parcial self op e :
  lanzada self op = Some e →
  productos (conn (paso self op)) = productos (conn self)
  ∧ _productos_por_id (paso self op) = _productos_por_id self
  ∧ _nombre_idx (paso self op) = _nombre_idx self.
Proof.
  destruct op as [n c pr|i|i c|i pr|i n]; unfold lanzada, paso;
    [rewrite anadir_producto_eq|rewrite eliminar_producto_eq
    |rewrite actualizar_cantidad_eq|rewrite actualizar_precio_eq
    |rewrite actualizar_nombre_eq];
    intros He; repeat case_match; cbn [fst snd] in *; try done;
    match goal with
    | H : execute _ _ = (inl _, _) |- _ => apply execute_error in H as (Ht & _)
    end; simpl; by rewrite Ht.
Qed.

(** C1. Index/store convergence: after any sequence of create, update
    (quantity, price, name) and delete calls on a freshly rebuilt layer, the
    records held in [_productos_por_id] are exactly the rows of the table
    [productos], as (id, nombre, cantidad, precio), each one once. Records
    are compared as Python's [==] compares them: the cache keeps the float it
    was given, and the table gives a negative zero back as zero. *)
Theorem C1_index_store_convergence (c : Conexion) (ops : list Operacion) :
  tupla_py <$> registros (ejecutar ops (__init__ c))
  ≡ₚ tupla_py <$> filas_tabla (conn (ejecutar ops (__init__ c))).
Proof.
  destruct (Inv_alcanzable c ops) as [Hnd Hids Hesp _ _].
  generalize dependent (ejecutar ops (__init__ c)). intros self Hnd Hids Hesp.
  unfold registros, filas_tabla, fetchall, dict_values.
  set (h := λ row : Z * Fila,
         (Some row.1, col_nombre row.2, col_cantidad row.2, col_precio row.2)).
  rewrite <- !list_fmap_compose.
  (* both sides list the rows of the table as [==] sees them *)
  transitivity (h <$> map_to_list (fila_py <$> productos (conn self))).
  - rewrite <- Hesp, map_to_list_fmap. unfold vista.
    rewrite (map_to_list_to_map _ Hnd), <- list_fmap_compose.
    match goal with
    | |- ?f <$> ?l ≡ₚ ?g <$> ?l => rewrite (Forall_fmap_ext_1 f g l); [done|]
    end.
    apply Forall_forall. intros [k p] Hin. unfold h, tupla_py, to_tuple. simpl.
    by rewrite (Hids k p) by (by apply elem_of_list_to_map).
  - by rewrite map_to_list_fmap, <- list_fmap_compose.
Qed.

(** C1, the records taken bit for bit: after [anadir_producto("a", 1, -0.0)]
    on a new database the guard [precio < 0] has let the negative zero
    through, the dict holds the price -0.0 it was given, and the table, which
    keeps a REAL without fraction as an integer, gives 0.0 back. The two
    lists of records are then not the same, though [==] finds them equal. *)
Lemma C1_exact_records_counterexample :
  (anadir_producto "a" 1 (-0)%float (__init__ db_nueva)).1
    = inr (mkProducto (Some 1) "a" 1 (-0)%float)
  ∧ registros (ejecutar [Anadir "a" 1 (-0)%float] (__init__ db_nueva))
    = [(Some 1, "a"%string, 1, (-0)%float)]
  ∧ filas_tabla (conn (ejecutar [Anadir "a" 1 (-0)%float] (__init__ db_nueva)))
    = [(Some 1, "a"%string, 1, 0%float)]
  ∧ ¬ (registros (ejecutar [Anadir "a" 1 (-0)%float] (__init__ db_nueva))
       ≡ₚ filas_tabla
            (conn (ejecutar [Anadir "a" 1 (-0)%float] (__init__ db_nueva)))).
Proof.
  assert (registros (ejecutar [Anadir "a" 1 (-0)%float] (__init__ db_nueva))
          = [(Some 1, "a"%string, 1, (-0)%float)]) as E1
    by (vm_compute; reflexivity).
  assert (filas_tabla
            (conn (ejecutar [Anadir "a" 1 (-0)%float] (__init__ db_nueva)))
          = [(Some 1, "a"%string, 1, 0%float)]) as E2
    by (vm_compute; reflexivity).
  split_and!; [vm_compute; reflexivity|done|done|].
  rewrite E1, E2. intros H%Permutation_singleton_r.
  (* the two zeros differ in their sign bit *)
  assert (FloatOps.Prim2SF (-0)%float = FloatOps.Prim2SF 0%float) as Hs
    by congruence.
  vm_compute in Hs. discriminate.
Qed.

(** ** Negative arguments *)

(** C2. Negative rejection with no state change: [anadir_producto] with a
    negative quantity or price, [actualizar_cantidad] and [actualizar_precio]
    with a negative value raise ValueError, whatever the name and the id
    (present or not), and the object after the call is the object before it:
    same table, same list of statements handed to [execute], same
    [_productos_por_id], same [_nombre_idx]. *)
Theorem C2_negative_rejection
    (self : Inventario) (n : string) (i c : Z) (pr : float) :
  (c < 0 ∨ PrimFloat.ltb pr 0%float = true →
     anadir_producto n c pr self = (inl ValueError, self))
  ∧ (c < 0 → actualizar_cantidad i c self = (inl ValueError, self))
  ∧ (PrimFloat.ltb pr 0%float = true →
       actualizar_precio i pr self = (inl ValueError, self)).
Proof.
  split_and!.
  - intros H. rewrite anadir_producto_eq.
    assert ((c <? 0) || PrimFloat.ltb pr 0%float = true) as ->; [|done].
    destruct H as [H| ->].
    + apply Z.ltb_lt in H. by rewrite H.
    + apply orb_true_r.
  - intros H. rewrite actualizar_cantidad_eq.
    apply Z.ltb_lt in H. by rewrite H.
  - intros H. rewrite actualizar_precio_eq. by rewrite H.
Qed.

Lemma C2_negative_rejection_witness :
  anadir_producto "a" (-1) 5%float (__init__ db_nueva)
    = (inl ValueError, __init__ db_nueva)
  ∧ actualizar_cantidad 7 (-1) (__init__ db_nueva)
    = (inl ValueError, __init__ db_nueva)
  ∧ actualizar_precio 7 (-0.5)%float (__init__ db_nueva)
    = (inl ValueError, __init__ db_nueva).
Proof.
  pose proof (C2_negative_rejection (__init__ db_nueva) "a" 7 (-1) (-0.5)%float)
    as (_ & Hc & Hp).
  pose proof (C2_negative_rejection (__init__ db_nueva) "a" 7 (-1) 5%float)
    as (Ha & _ & _).
  split_and!.
  - apply Ha. left. lia.
  - apply Hc. lia.
  - apply Hp. reflexivity.
Defined.

(** ** The name index holds no empty set *)

Lemma sin_vacios_indexar p self :
  sin_vacios (_nombre_idx self) → sin_vacios (_nombre_idx (_indexar p self)).
Proof.
  intros H. destruct (id p) as [i|] eqn:Hi.
  - rewrite (_indexar_Some _ i) by done. by apply sin_vacios_anotar.
  - unfold _indexar. by rewrite Hi.
Qed.

Lemma sin_vacios_desindexar p self :
  sin_vacios (_nombre_idx self) → sin_vacios (_nombre_idx (_desindexar p self)).
Proof.
  intros H. unfold _desindexar. destruct (id p); [|done].
  by apply sin_vacios_descartar.
Qed.

Lemma sin_vacios_reindexar_nombre p anterior self :
  sin_vacios (_nombre_idx self) →
  sin_vacios (_nombre_idx (_reindexar_nombre p anterior self)).
Proof.
  intros H. destruct (id p) as [i|] eqn:Hi.
  - rewrite (_reindexar_nombre_Some _ _ i) by done.
    by apply sin_vacios_anotar, sin_vacios_descartar.
  - unfold _reindexar_nombre. by rewrite Hi.
Qed.

Lemma sin_vacios_cargar rows self :
  sin_vacios (_nombre_idx self) → sin_vacios (_nombre_idx (cargar rows self)).
Proof.
  revert self. induction rows as [|row rows IH]; intros self H; [done|].
  apply IH. by apply sin_vacios_indexar.
Qed.

Lemma sin_vacios_cargar_desde_db self :
  sin_vacios (_nombre_idx (_cargar_desde_db self)).
Proof.
  rewrite _cargar_desde_db_eq. apply sin_vacios_cargar, sin_vacios_empty.
Qed.

Lemma sin_vacios_paso self op :
  sin_vacios (_nombre_idx self) → sin_vacios (_nombre_idx (paso self op)).
Proof.
  intros H. destruct op as [n c pr|i|i c|i pr|i n]; unfold paso.
  - rewrite anadir_producto_eq. repeat case_match; cbn [snd]; try done.
    by apply sin_vacios_indexar.
  - rewrite eliminar_producto_eq. repeat case_match; cbn [snd]; try done.
    by apply sin_vacios_desindexar.
  - rewrite actualizar_cantidad_eq. by repeat case_match.
  - rewrite actualizar_precio_eq. by repeat case_match.
  - rewrite actualizar_nombre_eq. repeat case_match; cbn [snd]; try done.
    by apply sin_vacios_reindexar_nombre.
Qed.

Lemma sin_vacios_ejecutar ops self :
  sin_vacios (_nombre_idx self) → sin_vacios (_nombre_idx (ejecutar ops self)).
Proof.
  unfold ejecutar. revert self.
  induction ops as [|op ops IH]; intros self H; simpl; [done|].
  by apply IH, sin_vacios_paso.
Qed.

(** C6. No empty name-sets: when no key of [_nombre_idx] maps to the empty
    set, none does after [_indexar], [_desindexar], [_reindexar_nombre], or
    any sequence of calls of the CRUD methods; none does after
    [_cargar_desde_db], whatever the object was before; and so none does in
    a rebuilt layer after any sequence of calls. *)
Theorem C6_no_empty_name_sets
    (self : Inventario) (H : sin_vacios (_nombre_idx self)) :
  (∀ p, sin_vacios (_nombre_idx (_indexar p self)))
  ∧ (∀ p, sin_vacios (_nombre_idx (_desindexar p self)))
  ∧ (∀ p anterior, sin_vacios (_nombre_idx (_reindexar_nombre p anterior self)))
  ∧ (∀ ops, sin_vacios (_nombre_idx (ejecutar ops self)))
  ∧ (∀ self', sin_vacios (_nombre_idx (_cargar_desde_db self')))
  ∧ (∀ c ops, sin_vacios (_nombre_idx (ejecutar ops (__init__ c)))).
Proof.
  split_and!.
  - intros p. by apply sin_vacios_indexar.
  - intros p. by apply sin_vacios_desindexar.
  - intros p anterior. by apply sin_vacios_reindexar_nombre.
  - intros ops. by apply sin_vacios_ejecutar.
  - apply sin_vacios_cargar_desde_db.
  - intros c ops. apply sin_vacios_ejecutar, sin_vacios_cargar_desde_db.
Qed.

Lemma C6_no_empty_name_sets_witness :
  sin_vacios (_nombre_idx (__init__ db_nueva))
  ∧ ∀ ops, sin_vacios (_nombre_idx (ejecutar ops (__init__ db_nueva))).
Proof.
  assert (sin_vacios (_nombre_idx (__init__ db_nueva))) as H.
  { intros k s. vm_compute. discriminate. }
  split; [exact H|].
  exact (proj1 (proj2 (proj2 (proj2
    (C6_no_empty_name_sets (__init__ db_nueva) H))))).
Defined.

(** ** The two indexes agree *)

(** C9. Cross-index consistency: in a rebuilt layer after any sequence of
    calls, every id in the set under a key [k] of [_nombre_idx] is a key of
    [_productos_por_id] whose object has a name that normalizes to [k]; and
    every id of [_productos_por_id] is in the set of exactly one key, the
    normalization of its object's name. *)
Theorem C9_cross_index_consistency (c : Conexion) (ops : list Operacion) :
  let self := ejecutar ops (__init__ c) in
  (∀ k s i, _nombre_idx self !! k = Some s → i ∈ s →
     ∃ p, dict_get (_productos_por_id self) i = Some p
          ∧ _normaliza (nombre p) = k)
  ∧ (∀ i p, dict_get (_productos_por_id self) i = Some p →
       ∀ k, en_idx (_nombre_idx self) k i ↔ k = _normaliza (nombre p)).
Proof.
  intros self. destruct (Inv_alcanzable c ops) as [_ _ _ Hidx _].
  fold self in Hidx. unfold idx_ok in Hidx. split.
  - intros k s i Hk Hi. setoid_rewrite dict_get_vista. apply Hidx.
    by exists s.
  - intros i p Hp k. rewrite dict_get_vista in Hp. rewrite Hidx, Hp.
    naive_solver.
Qed.

(** ** Rowids stay 64-bit integers *)

Lemma cabe_int64_rowid i : 1 ≤ i ≤ INT64_MAX → cabe_int64 i = true.
Proof.
  intros [H1 H2]. unfold cabe_int64. apply andb_true_intro. split.
  - apply Z.leb_le. unfold INT64_MIN. lia.
  - by apply Z.leb_le.
Qed.

Lemma db_valida_execute s c : db_valida c → db_valida (execute s c).2.
Proof.
  intros Hv. destruct (execute s c) as [[e|r] c'] eqn:E; cbn [snd].
  - apply execute_error in E as (Ht & _). intros k. rewrite Ht. apply Hv.
  - destruct s as [n cant pr|i|cant i|pr i|n i].
    + apply execute_INSERT in E as (Ht & _ & Hr & _). intros k. rewrite Ht.
      intros [<-|[_ Hk]]%lookup_insert_is_Some; [|by apply Hv].
      by apply cabe_int64_rowid.
    + apply execute_DELETE in E as [Ht _]. intros k. rewrite Ht.
      intros [_ Hk]%lookup_delete_is_Some. by apply Hv.
    + apply execute_UPDATE_cantidad in E as Ht. intros k.
      rewrite Ht, lookup_alter_is_Some. apply Hv.
    + apply execute_UPDATE_precio in E as Ht. intros k.
      rewrite Ht, lookup_alter_is_Some. apply Hv.
    + apply execute_UPDATE_nombre in E as Ht. intros k.
      rewrite Ht, lookup_alter_is_Some. apply Hv.
Qed.

Lemma conn_desindexar p self : conn (_desindexar p self) = conn self.
Proof. unfold _desindexar. by destruct (id p). Qed.

Lemma conn_reindexar_nombre p anterior self :
  conn (_reindexar_nombre p anterior self) = conn self.
Proof.
  unfold _reindexar_nombre. destruct (id p); [|done]. by rewrite conn_indexar.
Qed.

Lemma db_valida_paso self op :
  db_valida (conn self) → db_valida (conn (paso self op)).
Proof.
  intros Hv. destruct op as [n c pr|i|i c|i pr|i n]; unfold paso.
  - rewrite anadir_producto_eq.
    pose proof (db_valida_execute (INSERT (Str.strip n) c pr) _ Hv) as He.
    repeat case_match; cbn [snd] in *; rewrite ?conn_indexar; done.
  - rewrite eliminar_producto_eq.
    pose proof (db_valida_execute (DELETE i) _ Hv) as He.
    repeat case_match; cbn [snd] in *; rewrite ?conn_desindexar; done.
  - rewrite actualizar_cantidad_eq.
    pose proof (db_valida_execute (UPDATE_cantidad c i) _ Hv) as He.
    repeat case_match; cbn [snd] in *; done.
  - rewrite actualizar_precio_eq.
    pose proof (db_valida_execute (UPDATE_precio pr i) _ Hv) as He.
    repeat case_match; cbn [snd] in *; done.
  - rewrite actualizar_nombre_eq.
    pose proof (db_valida_execute (UPDATE_nombre (Str.strip n) i) _ Hv) as He.
    repeat case_match; cbn [snd] in *; rewrite ?conn_reindexar_nombre; done.
Qed.

Lemma db_valida_alcanzable c ops :
  db_valida c → db_valida (conn (ejecutar ops (__init__ c))).
Proof.
  intros Hv. assert (db_valida (conn (__init__ c))) as H0.
  { unfold __init__. rewrite _cargar_desde_db_eq, conn_cargar. exact Hv. }
  unfold ejecutar. revert H0. generalize (__init__ c).
  induction ops as [|op ops IH]; intros self H; simpl; [done|].
  by apply IH, db_valida_paso.
Qed.

(** ** Delete *)

(** C7. Delete: for an id that [_productos_por_id] does not hold,
    [eliminar_producto] returns False and the object is left as it was, no
    statement having been handed to [execute]; this holds in every state.
    For an id it holds, in a layer rebuilt over a table of 64-bit rowids
    after any sequence of calls, it hands DELETE to [execute], which removes
    the row, then pops the id from [_productos_por_id] and discards it from
    the set of its name (dropping the set when left empty), and returns
    True. Afterwards the dict has no entry for the id and the entries of the
    other ids as before; the id is in no set of the name index, every other
    id is in the sets it was in, and no set is empty. *)
Theorem C7_delete (c : Conexion) (ops : list Operacion) (i : Z)
    (Hc : db_valida c) :
  let self := ejecutar ops (__init__ c) in
  (∀ self0, dict_get (_productos_por_id self0) i = None →
     eliminar_producto i self0 = (inr false, self0))
  ∧ (∀ p, dict_get (_productos_por_id self) i = Some p →
       let self' := (eliminar_producto i self).2 in
       eliminar_producto i self =
         (inr true,
          {| conn := {| productos := delete i (productos (conn self));
                        sqlite_sequence := sqlite_sequence (conn self);
                        llamadas := llamadas (conn self) ++ [DELETE i] |};
             _productos_por_id := dict_pop (_productos_por_id self) i;
             _nombre_idx :=
               descartar (_normaliza (nombre p)) i (_nombre_idx self) |})
       ∧ dict_get (dict_pop (_productos_por_id self) i) i = None
       ∧ (∀ j, dict_get (_productos_por_id self') j
               = if decide (j = i) then None
                 else dict_get (_productos_por_id self) j)
       ∧ (∀ k j, (∃ s, _nombre_idx self' !! k = Some s ∧ j ∈ s)
                 ↔ j ≠ i ∧ ∃ s, _nombre_idx self !! k = Some s ∧ j ∈ s)
       ∧ (∀ k s, _nombre_idx self' !! k = Some s → s ≠ ∅)
       ∧ (∀ j, productos (conn self') !! j
               = if decide (j = i) then None else productos (conn self) !! j)).
Proof.
  intros self. split.
  - intros self0 Hi. rewrite eliminar_producto_eq. by rewrite Hi.
  - intros p Hp self'.
    destruct (Inv_alcanzable c ops) as [Hnd Hids Hesp Hidx Hvac].
    fold self in Hnd, Hids, Hesp, Hidx, Hvac.
    pose proof (db_valida_alcanzable c ops Hc) as Hv. fold self in Hv.
    assert (cabe_int64 i = true) as Hrow.
    { apply Hv. rewrite dict_get_vista in Hp.
      destruct (espejo_Some _ _ i p Hesp Hp) as (f & -> & _). by eexists. }
    assert (eliminar_producto i self =
              (inr true,
               {| conn := {| productos := delete i (productos (conn self));
                             sqlite_sequence := sqlite_sequence (conn self);
                             llamadas := llamadas (conn self) ++ [DELETE i] |};
                  _productos_por_id := dict_pop (_productos_por_id self) i;
                  _nombre_idx :=
                    descartar (_normaliza (nombre p)) i (_nombre_idx self) |}))
      as Heq.
    { rewrite eliminar_producto_eq, Hp. rewrite dict_get_vista in Hp.
      unfold execute, aplicar, con_tabla. rewrite Hrow. simpl.
      unfold _desindexar. by rewrite (Hids i p Hp). }
    subst self'. rewrite Heq. cbn [snd conn _productos_por_id _nombre_idx productos].
    rewrite dict_get_vista in Hp.
    split_and!.
    + done.
    + rewrite dict_get_vista, vista_pop by done. apply lookup_delete_eq.
    + intros j. rewrite !dict_get_vista, vista_pop by done. case_decide as Hj.
      * subst j. apply lookup_delete_eq.
      * by apply lookup_delete_ne.
    + (* the id sat under the key of its own name and under no other *)
      intros k j. fold (en_idx (_nombre_idx self) k j).
      fold (en_idx (descartar (_normaliza (nombre p)) i (_nombre_idx self)) k j).
      rewrite en_idx_descartar. split.
      * intros [Hen Hno]. split; [|done]. intros ->.
        apply Hidx in Hen as (q & Hq & Hk). rewrite Hp in Hq.
        injection Hq as <-. by apply Hno.
      * intros [Hj Hen]. split; [done|]. by intros [_ ?].
    + by apply sin_vacios_descartar.
    + intros j. case_decide as Hj.
      * subst j. apply lookup_delete_eq.
      * by apply lookup_delete_ne.
Qed.

Lemma C7_delete_witness :
  eliminar_producto 1
    (ejecutar [Anadir "Pen" 3 1.5%float; Anadir "Ink" 7 0.25%float]
              (__init__ db_nueva))
  = (inr true,
     {| conn := {| productos := {[2 := mkFila "Ink" 7 0.25%float]};
                   sqlite_sequence := 2;
                   llamadas := [INSERT "Pen" 3 1.5%float;
                                INSERT "Ink" 7 0.25%float; DELETE 1] |};
        _productos_por_id := [(2, mkProducto (Some 2) "Ink" 7 0.25%float)];
        _nombre_idx := {["ink"%string := {[2]}]} |}).
Proof.
  assert (db_valida db_nueva) as Hv.
  { intros k. unfold db_nueva. simpl. rewrite lookup_empty. by intros [? ?]. }
  destruct (C7_delete db_nueva
              [Anadir "Pen" 3 1.5%float; Anadir "Ink" 7 0.25%float] 1 Hv)
    as [_ H].
  destruct (H (mkProducto (Some 1) "Pen" 3 1.5%float)) as [-> _].
  - vm_compute. reflexivity.
  - vm_compute. reflexivity.
Defined.

(** ** Search by name *)

Lemma recoger_ok ids : ∀ acc self,
  (∀ i, i ∈ ids → is_Some (dict_get (_productos_por_id self) i)) →
  recoger ids acc self
  = (inr (acc ++ omap (dict_get (_productos_por_id self)) ids), self).
Proof.
  induction ids as [|i ids IH]; intros acc self Hall; simpl.
  - unfold devolver. by rewrite app_nil_r.
  - desplegar. destruct (Hall i) as [p Hp]; [apply elem_of_cons; by left|].
    rewrite Hp. rewrite IH.
    + by rewrite <- app_assoc.
    + intros j Hj. apply Hall, elem_of_cons. by right.
Qed.

Lemma length_omap_all {A B} (f : A → option B) (l : list A) :
  (∀ x, x ∈ l → is_Some (f x)) → length (omap f l) = length l.
Proof.
  induction l as [|x l IH]; intros Hall; simpl; [done|].
  destruct (Hall x) as [y Hy]; [apply elem_of_cons; by left|].
  rewrite Hy. simpl. f_equal. apply IH. intros z Hz.
  apply Hall, elem_of_cons. by right.
Qed.

(** Under the invariant the set of the exact tier holds the ids of the
    objects whose name normalizes to the normalized query. *)
Lemma elem_of_conjunto_exacto self consulta i :
  Inv self →
  i ∈ conjunto_exacto self consulta ↔
  ∃ p, dict_get (_productos_por_id self) i = Some p
       ∧ _normaliza (nombre p) = _normaliza consulta.
Proof.
  intros [_ _ _ Hidx _]. setoid_rewrite dict_get_vista.
  rewrite <- (Hidx (_normaliza consulta) i).
  unfold conjunto_exacto, en_idx.
  destruct (_nombre_idx self !! _normaliza consulta) as [s|]; simpl.
  - naive_solver.
  - split; [by intros ?%not_elem_of_empty|naive_solver].
Qed.

Lemma elem_of_exactos self consulta p :
  p ∈ exactos self consulta ↔
  ∃ i, i ∈ conjunto_exacto self consulta
       ∧ dict_get (_productos_por_id self) i = Some p.
Proof.
  unfold exactos. rewrite list_elem_of_omap.
  by setoid_rewrite elem_of_elements.
Qed.

(** Under the invariant every id of the set has its object. *)
Lemma length_exactos self consulta :
  Inv self →
  length (exactos self consulta) = size (conjunto_exacto self consulta).
Proof.
  intros HI. unfold exactos. rewrite length_omap_all; [done|].
  intros i Hi%elem_of_elements.
  apply (elem_of_conjunto_exacto _ _ _ HI) in Hi as (p & -> & _). by eexists.
Qed.

Lemma exactos_nil self consulta :
  Inv self → exactos self consulta = [] ↔ conjunto_exacto self consulta = ∅.
Proof.
  intros HI. rewrite <- length_zero_iff_nil, (length_exactos _ _ HI).
  rewrite size_empty_iff. apply leibniz_equiv_iff.
Qed.

(** [buscar_por_nombre] in closed form, under the invariant: no subscript
    raises, and the scan runs exactly when the first loop found nothing. *)
Lemma buscar_por_nombre_eq self consulta :
  Inv self →
  buscar_por_nombre consulta self =
    (inr (match exactos self consulta with
          | [] => por_subcadena self consulta
          | r => r
          end), self).
Proof.
  intros HI. unfold buscar_por_nombre. desplegar.
  fold (conjunto_exacto self consulta). rewrite recoger_ok.
  - simpl. fold (exactos self consulta). by destruct (exactos _ _).
  - intros i Hi%elem_of_elements.
    apply (elem_of_conjunto_exacto _ _ _ HI) in Hi as (p & -> & _). by eexists.
Qed.

(** C3. Tier exclusivity of [buscar_por_nombre]: in a rebuilt layer after
    any sequence of calls, for every query, the call returns a list [r] and
    changes nothing. When the set under the normalized query in
    [_nombre_idx] is non-empty, [r] holds exactly the objects whose ids are
    in that set, one per id, each with a name that normalizes to the
    normalized query (so none that only contains it). When that set is empty
    or absent, [r] is the full scan: every object whose normalized name
    contains the normalized query. *)
Theorem C3_search_tier_exclusivity
    (c : Conexion) (ops : list Operacion) (consulta : string) :
  let self := ejecutar ops (__init__ c) in
  let s := conjunto_exacto self consulta in
  ∃ r, buscar_por_nombre consulta self = (inr r, self)
    ∧ (s ≠ ∅ →
         r ≠ [] ∧ length r = size s
         ∧ (∀ p, p ∈ r ↔ ∃ i, i ∈ s ∧ dict_get (_productos_por_id self) i = Some p)
         ∧ (∀ p, p ∈ r → _normaliza (nombre p) = _normaliza consulta))
    ∧ (s = ∅ → r = por_subcadena self consulta).
Proof.
  intros self s. pose proof (Inv_alcanzable c ops) as HI. fold self in HI.
  eexists. split; [by apply buscar_por_nombre_eq|].
  pose proof (exactos_nil self consulta HI) as Hnil. fold s in Hnil.
  destruct (exactos self consulta) as [|p0 r] eqn:Er.
  - (* the first loop found nothing: the set is empty *)
    split; [|done]. intros Hne. exfalso. by apply Hne, Hnil.
  - (* the first loop found something: the scan is skipped *)
    split; [|intros He; by apply Hnil in He].
    intros _. rewrite <- Er. split_and!.
    + by rewrite Er.
    + by apply length_exactos.
    + intros p. apply elem_of_exactos.
    + intros p (i & Hi & Hp)%elem_of_exactos.
      apply (elem_of_conjunto_exacto _ _ _ HI) in Hi as (p' & Hp' & Hn).
      congruence.
Qed.

(** The empty string occurs in every name: the scan keeps every object. *)
Lemma filter_contains_empty (l : list Producto) :
  List.filter (λ p, Str.contains EmptyString (_normaliza (nombre p))) l = l.
Proof.
  induction l as [|p l IH]; simpl; [done|].
  rewrite StrFacts.contains_empty. by f_equal.
Qed.

(** C10. Empty query: in a rebuilt layer after any sequence of calls, when
    no held object has a name that normalizes to the empty string, a query
    that is empty or all whitespace makes [buscar_por_nombre] return every
    object of [_productos_por_id], in the order of the dict. *)
Theorem C10_blank_query_returns_all
    (c : Conexion) (ops : list Operacion) (consulta : string) :
  let self := ejecutar ops (__init__ c) in
  Str.blank consulta = true →
  (∀ p, p ∈ dict_values (_productos_por_id self) →
        _normaliza (nombre p) ≠ EmptyString) →
  buscar_por_nombre consulta self
  = (inr (dict_values (_productos_por_id self)), self).
Proof.
  intros self Hb Hnone. pose proof (Inv_alcanzable c ops) as HI. fold self in HI.
  rewrite buscar_por_nombre_eq by done.
  assert (conjunto_exacto self consulta = ∅) as He.
  { apply leibniz_equiv, elem_of_equiv_empty. intros i Hi.
    apply (elem_of_conjunto_exacto _ _ _ HI) in Hi as (p & Hp & Hn).
    rewrite (_normaliza_blank consulta Hb) in Hn.
    apply (Hnone p); [|done].
    apply elem_of_values; [by destruct HI|]. exists i.
    by rewrite <- dict_get_vista. }
  apply (exactos_nil _ _ HI) in He. rewrite He. do 2 f_equal.
  unfold por_subcadena. rewrite (_normaliza_blank consulta Hb).
  apply filter_contains_empty.
Qed.

Lemma C10_blank_query_returns_all_witness :
  buscar_por_nombre "  " (ejecutar [Anadir "Pen" 3 1.5%float] (__init__ db_nueva))
  = (inr [mkProducto (Some 1) "Pen" 3 1.5%float],
     ejecutar [Anadir "Pen" 3 1.5%float] (__init__ db_nueva)).
Proof.
  apply (C10_blank_query_returns_all db_nueva [Anadir "Pen" 3 1.5%float] "  ").
  - reflexivity.
  - intros p Hp. vm_compute in Hp. apply list_elem_of_singleton in Hp.
    subst p. vm_compute. discriminate.
Defined.

(** ** Rename *)

(** The object a rename leaves under [i], and the invariant after it. *)
Lemma actualizar_nombre_ok self i X p self' :
  Inv self →
  dict_get (_productos_por_id self) i = Some p →
  actualizar_nombre i X self = (inr true, self') →
  Inv self'
  ∧ vista (_productos_por_id self')
    = <[i := set_nombre (Str.strip X) p]> (vista (_productos_por_id self)).
Proof.
  intros HI Hp Hren. split.
  - pose proof (Inv_actualizar_nombre i X self HI) as H.
    by rewrite Hren in H.
  - rewrite actualizar_nombre_eq, Hp in Hren.
    destruct (execute _ _) as [[e|r] c']; [done|].
    injection Hren as <-. rewrite dict_get_vista in Hp.
    rewrite (_reindexar_nombre_Some _ _ i) by (by apply (inv_ids _ HI i p)).
    simpl. by rewrite !vista_set, insert_insert_eq.
Qed.

(** Under the invariant, the held object whose id is [i] is the one the
    dict holds under [i]. *)
Lemma valor_con_id self q i :
  Inv self →
  q ∈ dict_values (_productos_por_id self) → id q = Some i →
  vista (_productos_por_id self) !! i = Some q.
Proof.
  intros [Hnd Hids _ _ _] Hq Hi.
  apply elem_of_values in Hq as [k Hk]; [|done].
  pose proof (Hids k q Hk) as Hk'. congruence.
Qed.

(** C4 (amended). Rename visibility: in a rebuilt layer after any sequence
    of calls, let the object under id [i] have the name [nombre p], with a
    normalization other than that of [X]. After [actualizar_nombre i X]
    returns True, [buscar_por_nombre X] returns a list that holds the
    object of id [i]; and [buscar_por_nombre (nombre p)] returns a list that
    holds it exactly when no object is left under the normalized old name
    and the normalized old name occurs in the normalized new name, that is
    when the full scan runs and matches the new name. *)
Theorem C4_rename_visibility
    (c : Conexion) (ops : list Operacion) (i : Z) (X : string)
    (p : Producto) (self' : Inventario) :
  let self := ejecutar ops (__init__ c) in
  dict_get (_productos_por_id self) i = Some p →
  _normaliza (nombre p) ≠ _normaliza X →
  actualizar_nombre i X self = (inr true, self') →
  (∃ r, buscar_por_nombre X self' = (inr r, self')
        ∧ ∃ q, q ∈ r ∧ id q = Some i)
  ∧ (∃ r, buscar_por_nombre (nombre p) self' = (inr r, self')
          ∧ ((∃ q, q ∈ r ∧ id q = Some i) ↔
             conjunto_exacto self' (nombre p) = ∅
             ∧ Str.contains (_normaliza (nombre p)) (_normaliza X) = true)).
Proof.
  intros self Hp Hne Hren.
  pose proof (Inv_alcanzable c ops) as HI. fold self in HI.
  destruct (actualizar_nombre_ok self i X p self' HI Hp Hren) as [HI' Hv].
  set (p' := set_nombre (Str.strip X) p) in Hv.
  assert (id p' = Some i) as Hid'.
  { apply (inv_ids _ HI i p). by rewrite <- dict_get_vista. }
  assert (dict_get (_productos_por_id self') i = Some p') as Hp'.
  { by rewrite dict_get_vista, Hv, lookup_insert_eq. }
  assert (_normaliza (nombre p') = _normaliza X) as Hn'
    by apply _normaliza_strip.
  split.
  - eexists. split; [by apply buscar_por_nombre_eq|].
    exists p'. split; [|done].
    assert (p' ∈ exactos self' X) as Hin.
    { apply elem_of_exactos. exists i. split; [|done].
      apply (elem_of_conjunto_exacto _ _ _ HI'). by exists p'. }
    destruct (exactos self' X); [by apply elem_of_nil in Hin|done].
  - eexists. split; [by apply buscar_por_nombre_eq|].
    pose proof (exactos_nil self' (nombre p) HI') as Hnil.
    destruct (exactos self' (nombre p)) as [|q0 r] eqn:Er.
    + assert (conjunto_exacto self' (nombre p) = ∅) as He by (by apply Hnil).
      unfold por_subcadena. split.
      * intros (q & Hq & Hiq). split; [done|].
        apply list_elem_of_In, filter_In in Hq as [Hq Hc].
        apply list_elem_of_In in Hq.
        pose proof (valor_con_id self' q i HI' Hq Hiq) as Hqi.
        rewrite Hv, lookup_insert_eq in Hqi. injection Hqi as <-.
        by rewrite <- Hn'.
      * intros [_ Hc]. exists p'. split; [|done].
        apply list_elem_of_In, filter_In. split.
        -- apply list_elem_of_In, elem_of_values; [by destruct HI'|].
           exists i. by rewrite Hv, lookup_insert_eq.
        -- by rewrite Hn'.
    + split; [|intros [He _]; by apply Hnil in He].
      intros (q & Hq & Hiq). exfalso. rewrite <- Er in Hq.
      apply elem_of_exactos in Hq as (j & Hjs & Hj).
      assert (_normaliza (nombre q) = _normaliza (nombre p)) as Hnq.
      { apply (elem_of_conjunto_exacto _ _ _ HI') in Hjs as (q' & Hq' & Hn).
        congruence. }
      rewrite dict_get_vista in Hj.
      pose proof (inv_ids _ HI' j q Hj) as Hjq.
      assert (j = i) as -> by congruence.
      rewrite Hv, lookup_insert_eq in Hj. injection Hj as <-.
      congruence.
Qed.

(** C4, as stated, fails: the only object is named Pen; renamed to Pencil
    (another normalized name), it is still what a search for Pen returns,
    because no exact match is left and the scan finds pen inside pencil. *)
Lemma C4_rename_visibility_counterexample :
  dict_get (_productos_por_id ejemplo_pen) 1
    = Some (mkProducto (Some 1) "Pen" 3 1.5%float)
  ∧ _normaliza "Pen" ≠ _normaliza "Pencil"
  ∧ (actualizar_nombre 1 "Pencil" ejemplo_pen).1 = inr true
  ∧ (buscar_por_nombre "Pen" (actualizar_nombre 1 "Pencil" ejemplo_pen).2).1
    = inr [mkProducto (Some 1) "Pencil" 3 1.5%float].
Proof.
  split_and!.
  - vm_compute. reflexivity.
  - vm_compute. discriminate.
  - vm_compute. reflexivity.
  - vm_compute. reflexivity.
Qed.

Lemma C4_rename_visibility_witness :
  (∃ r, buscar_por_nombre "Ink" (actualizar_nombre 1 "Ink" ejemplo_pen).2
        = (inr r, (actualizar_nombre 1 "Ink" ejemplo_pen).2)
        ∧ ∃ q, q ∈ r ∧ id q = Some 1)
  ∧ (∃ r, buscar_por_nombre "Pen" (actualizar_nombre 1 "Ink" ejemplo_pen).2
          = (inr r, (actualizar_nombre 1 "Ink" ejemplo_pen).2)
          ∧ ((∃ q, q ∈ r ∧ id q = Some 1) ↔
             conjunto_exacto (actualizar_nombre 1 "Ink" ejemplo_pen).2 "Pen" = ∅
             ∧ Str.contains (_normaliza "Pen") (_normaliza "Ink") = true)).
Proof.
  apply (C4_rename_visibility db_nueva [Anadir "Pen" 3 1.5%float] 1 "Ink"
           (mkProducto (Some 1) "Pen" 3 1.5%float)
           (actualizar_nombre 1 "Ink" ejemplo_pen).2).
  - vm_compute. reflexivity.
  - vm_compute. discriminate.
  - vm_compute. reflexivity.
Defined.

(** ** Names *)






Lemma conn__init__ c : conn (__init__ c) = c.
Proof. unfold __init__. by rewrite _cargar_desde_db_eq, conn_cargar. Qed.





(** ** Listing in order of id *)

Section SortedFacts.
Context {A : Type} (key : A → Z).

Lemma insertar_perm x l : insertar key x l ≡ₚ x :: l.
Proof.
  induction l as [|y l IH]; simpl; [done|].
  destruct (key x <=? key y); [done|].
  rewrite IH. apply Permutation_swap.
Qed.

Lemma sorted_perm l : sorted key l ≡ₚ l.
Proof.
  unfold sorted. induction l as [|x l IH]; simpl; [done|].
  by rewrite insertar_perm, IH.
Qed.

Lemma insertar_sorted x l :
  StronglySorted (λ a b, key a ≤ key b) l →
  StronglySorted (λ a b, key a ≤ key b) (insertar key x l).
Proof.
  induction 1 as [|y l Hs IH Hy]; simpl.
  - repeat constructor.
  - destruct (key x <=? key y) eqn:Hxy.
    + apply Z.leb_le in Hxy. constructor; [by constructor|].
      constructor; [done|].
      eapply Forall_impl; [exact Hy|]. simpl. intros z Hz. lia.
    + apply Z.leb_gt in Hxy. constructor; [done|].
      rewrite insertar_perm. constructor; [lia|done].
Qed.

Lemma sorted_sorted l : StronglySorted (λ a b, key a ≤ key b) (sorted key l).
Proof.
  unfold sorted. induction l as [|x l IH]; simpl; [constructor|].
  by apply insertar_sorted.
Qed.

Lemma sorted_strict l :
  StronglySorted (λ a b, key a ≤ key b) l → NoDup (key <$> l) →
  StronglySorted (λ a b, key a < key b) l.
Proof.
  induction 1 as [|x l Hs IH Hx]; intros Hnd; [constructor|].
  rewrite fmap_cons in Hnd. apply NoDup_cons in Hnd as [Hnx Hnd].
  constructor; [by apply IH|].
  apply Forall_forall. intros y Hy.
  assert (key x ≤ key y) by (by eapply Forall_forall in Hx).
  assert (key x ≠ key y); [|lia].
  intros Heq. apply Hnx. rewrite Heq. apply list_elem_of_fmap. by exists y.
Qed.

(** A list with distinct keys has one sorted arrangement. *)
Lemma sorted_unique l1 l2 :
  NoDup (key <$> l1) → l1 ≡ₚ l2 → sorted key l1 = sorted key l2.
Proof.
  intros Hnd Hp.
  apply (StronglySorted_unique_strong (λ a b, key a < key b)).
  - intros; lia.
  - apply sorted_strict; [apply sorted_sorted|]. by rewrite sorted_perm.
  - apply sorted_strict; [apply sorted_sorted|]. by rewrite sorted_perm, <- Hp.
  - by rewrite !sorted_perm.
Qed.

End SortedFacts.

Lemma StronglySorted_impl_elem {A} (R R' : A → A → Prop) (l : list A) :
  (∀ x y, x ∈ l → y ∈ l → R x y → R' x y) →
  StronglySorted R l → StronglySorted R' l.
Proof.
  intros Himp Hs. induction Hs as [|x l Hs IH Hx]; [constructor|].
  constructor.
  - apply IH. intros a b Ha Hb. apply Himp; apply elem_of_cons; by right.
  - apply Forall_forall. intros y Hy. apply Himp.
    + apply elem_of_cons. by left.
    + apply elem_of_cons. by right.
    + by eapply Forall_forall in Hx.
Qed.

(** The sort key of an object held under [k] is [k]. *)
Lemma clave_orden_id p k : id p = Some k → clave_orden p = k.
Proof. intros H. unfold clave_orden. rewrite H. by case_decide. Qed.

Lemma clave_orden_values (d : list (Z * Producto)) :
  (∀ k p, (k, p) ∈ d → id p = Some k) →
  clave_orden <$> dict_values d = d.*1.
Proof.
  intros Hd. unfold dict_values. rewrite <- list_fmap_compose.
  apply Forall_fmap_ext_1, Forall_forall. intros [k p] Hin. simpl.
  apply clave_orden_id. by apply Hd.
Qed.

(** C8. Ordering of [listar_todos]: in a rebuilt layer after any sequence of
    calls, [listar_todos] returns the objects of [_productos_por_id], each
    once, in strictly ascending order of id, and the list is the same
    whatever the order in which the dict holds its entries. The sort itself,
    on any list of objects, is a rearrangement in ascending order of
    the key [p.id or 0], under which an unset id counts as 0 and so comes no
    later than any object whose id is not negative. *)
Theorem C8_listar_todos_sorted (c : Conexion) (ops : list Operacion) :
  let self := ejecutar ops (__init__ c) in
  ∃ r, listar_todos self = (inr r, self)
    ∧ r ≡ₚ dict_values (_productos_por_id self)
    ∧ StronglySorted menor_id r
    ∧ (∀ d', d' ≡ₚ _productos_por_id self →
             sorted clave_orden (dict_values d') = r)
    ∧ (∀ l, sorted clave_orden l ≡ₚ l
            ∧ StronglySorted (λ p q, clave_orden p ≤ clave_orden q)
                             (sorted clave_orden l))
    ∧ (∀ p q j, id p = None → id q = Some j → 0 ≤ j →
                clave_orden p ≤ clave_orden q).
Proof.
  intros self. destruct (Inv_alcanzable c ops) as [Hnd Hids _ _ _].
  fold self in Hnd, Hids.
  assert (∀ k p, (k, p) ∈ _productos_por_id self → id p = Some k) as Hd.
  { intros k p Hin. apply Hids. by apply elem_of_list_to_map. }
  pose proof (clave_orden_values _ Hd) as Hkeys.
  exists (sorted clave_orden (dict_values (_productos_por_id self))).
  split_and!.
  - done.
  - apply sorted_perm.
  - apply (StronglySorted_impl_elem (λ p q, clave_orden p < clave_orden q)).
    + intros p q Hp Hq Hlt. rewrite sorted_perm in Hp, Hq.
      apply list_elem_of_fmap in Hp as ([k1 p1] & -> & Hp).
      apply list_elem_of_fmap in Hq as ([k2 p2] & -> & Hq).
      apply Hd in Hp, Hq. simpl in *. unfold menor_id. rewrite Hp, Hq.
      by rewrite (clave_orden_id _ _ Hp), (clave_orden_id _ _ Hq) in Hlt.
    + apply sorted_strict; [apply sorted_sorted|].
      by rewrite sorted_perm, Hkeys.
  - intros d' Hperm. apply sorted_unique.
    + unfold dict_values. rewrite Hperm. fold (dict_values (_productos_por_id self)).
      by rewrite Hkeys.
    + unfold dict_values. by rewrite Hperm.
  - intros l. split; [apply sorted_perm|apply sorted_sorted].
  - intros p q j Hp Hq Hj. unfold clave_orden. rewrite Hp, Hq.
    case_decide; lia.
Qed.

(** ** The model on small runs *)

(** Exact match wins: with Pen (id 1) and Pencil (id 2), a search for pen
    returns the object of id 1 alone. *)
Example buscar_exacto :
  (buscar_por_nombre "pen"
     (ejecutar [Anadir "Pen" 3 1.5%float; Anadir "Pencil" 2 0.5%float]
               (__init__ db_nueva))).1
  = inr [mkProducto (Some 1) "Pen" 3 1.5%float].
Proof. vm_compute. reflexivity. Qed.

(** With Pencil alone there is no exact match and the scan returns it. *)
Example buscar_subcadena :
  (buscar_por_nombre " PEN "
     (ejecutar [Anadir "Pencil" 2 0.5%float] (__init__ db_nueva))).1
  = inr [mkProducto (Some 1) "Pencil" 2 0.5%float].
Proof. vm_compute. reflexivity. Qed.

(** A rowid is never given twice: after the row of id 1 is deleted the next
    row gets id 2. *)
Example rowid_no_reutilizado :
  _productos_por_id
    (ejecutar [Anadir "a" 1 1%float; Eliminar 1; Anadir "b" 1 1%float]
              (__init__ db_nueva))
  = [(2, mkProducto (Some 2) "b" 1 1%float)].
Proof. vm_compute. reflexivity. Qed.

(** A NaN price passes the test of the class and is refused by the table;
    a quantity beyond 64 bits is refused when it is bound. *)
Example execute_lanza :
  (anadir_producto "a" 1 nan ejemplo_pen).1 = inl IntegrityError
  ∧ (actualizar_cantidad 1 (2 ^ 63) ejemplo_pen).1 = inl OverflowError
  ∧ _productos_por_id (anadir_producto "a" 1 nan ejemplo_pen).2
    = _productos_por_id ejemplo_pen.
Proof. split_and!; vm_compute; reflexivity. Qed.

(** The cache keeps a negative zero that the table gives back as zero. *)
Example cero_negativo :
  precio <$> dict_get
    (_productos_por_id (ejecutar [Anadir "a" 1 (-0)%float] (__init__ db_nueva))) 1
  = Some (-0)%float
  ∧ col_precio <$>
      productos (conn (ejecutar [Anadir "a" 1 (-0)%float] (__init__ db_nueva))) !! 1
    = Some 0%float.
Proof. split; vm_compute; reflexivity. Qed.

(** [listar_todos] after the table was loaded in another order. *)
Example listar_ordenado :
  (listar_todos
     {| conn := db_nueva;
        _productos_por_id :=
          [(3, mkProducto (Some 3) "c" 1 1%float);
           (1, mkProducto (Some 1) "a" 1 1%float);
           (2, mkProducto (Some 2) "b" 1 1%float)];
        _nombre_idx := ∅ |}).1
  = inr [mkProducto (Some 1) "a" 1 1%float;
         mkProducto (Some 2) "b" 1 1%float;
         mkProducto (Some 3) "c" 1 1%float].
Proof. vm_compute. reflexivity. Qed.

(** * Further properties of the methods *)

(** ** Dicts *)

Section DictMore.
Context {V : Type}.
Implicit Types (d : list (Z * V)) (k : Z) (v : V).

Lemma dict_get_set d k v j :
  dict_get (dict_set d k v) j = if decide (j = k) then Some v else dict_get d j.
Proof.
  rewrite !dict_get_vista, vista_set. case_decide as Hj.
  - subst. apply lookup_insert_eq.
  - by apply lookup_insert_ne.
Qed.

Lemma dict_get_None d k : dict_get d k = None ↔ k ∉ d.*1.
Proof.
  rewrite dict_get_vista. unfold vista. symmetry. apply not_elem_of_list_to_map.
Qed.

(** Assigning to a present key moves no key. *)
Lemma dict_set_keys d k v : is_Some (dict_get d k) → (dict_set d k v).*1 = d.*1.
Proof.
  induction d as [|[k' v'] d IH]; cbn [dict_get dict_set]; [by intros [? ?]|].
  case_decide; subst; rewrite !fmap_cons; [done|]. intros Hk. by rewrite IH.
Qed.

(** Assigning to a new key appends it. *)
Lemma dict_set_new d k v : dict_get d k = None → dict_set d k v = d ++ [(k, v)].
Proof.
  induction d as [|[k' v'] d IH]; simpl; [done|].
  case_decide; subst; [done|]. intros Hk. by rewrite IH.
Qed.

(** Popping the key that was just appended gives the dict back. *)
Lemma dict_pop_set_new d k v :
  dict_get d k = None → dict_pop (dict_set d k v) k = d.
Proof.
  induction d as [|[k' v'] d IH]; simpl.
  - intros _. by case_decide.
  - case_decide; subst; [done|]. intros Hk. simpl.
    case_decide; [done|]. by rewrite IH.
Qed.

End DictMore.

(** ** Create, then read *)

(** X1. Round trip of create and get: on a rebuilt layer after any sequence
    of calls, when [anadir_producto] returns an object, the object carries a
    new id (one [obtener_por_id] did not know before), the stripped name and
    the given quantity and price; [obtener_por_id] of that id now returns
    this very object, and every other id reads as before. *)
Theorem X1_create_then_get
    (c : Conexion) (ops : list Operacion) (n : string) (cant : Z) (pr : float)
    (p : Producto) (self' : Inventario) :
  let self := ejecutar ops (__init__ c) in
  anadir_producto n cant pr self = (inr p, self') →
  ∃ i, p = mkProducto (Some i) (Str.strip n) cant pr
    ∧ valor (obtener_por_id i self) = inr None
    ∧ obtener_por_id i self' = (inr (Some p), self')
    ∧ ∀ j, j ≠ i → valor (obtener_por_id j self') = valor (obtener_por_id j self).
Proof.
  intros self Hadd. pose proof (Inv_alcanzable c ops) as HI. fold self in HI.
  rewrite anadir_producto_eq in Hadd.
  destruct ((cant <? 0) || PrimFloat.ltb pr 0%float); [done|].
  destruct (execute _ _) as [[e|i] c'] eqn:E; [done|].
  injection Hadd as <- <-. exists i.
  apply execute_INSERT in E as (_ & Hfresh & _).
  rewrite (_indexar_Some _ i) by done.
  unfold valor, obtener_por_id, leer. simpl. split_and!; [done| | |].
  - f_equal. rewrite dict_get_vista.
    by apply (espejo_None _ _ _ (inv_espejo _ HI)).
  - rewrite dict_get_set. by case_decide.
  - intros j Hj. rewrite dict_get_set. by case_decide.
Qed.

Lemma X1_create_then_get_witness :
  ∃ i, mkProducto (Some 2) "Ink" 7 0.25%float
       = mkProducto (Some i) (Str.strip " Ink ") 7 0.25%float
    ∧ valor (obtener_por_id i ejemplo_pen) = inr None
    ∧ obtener_por_id i (anadir_producto " Ink " 7 0.25%float ejemplo_pen).2
      = (inr (Some (mkProducto (Some 2) "Ink" 7 0.25%float)),
         (anadir_producto " Ink " 7 0.25%float ejemplo_pen).2)
    ∧ ∀ j, j ≠ i →
        valor (obtener_por_id j (anadir_producto " Ink " 7 0.25%float ejemplo_pen).2)
        = valor (obtener_por_id j ejemplo_pen).
Proof.
  apply (X1_create_then_get db_nueva [Anadir "Pen" 3 1.5%float] " Ink " 7 0.25%float).
  vm_compute. reflexivity.
Defined.

(** ** Ids are never given twice *)

(** The AUTOINCREMENT counter never goes down. *)
Lemma sqlite_sequence_execute s c :
  sqlite_sequence c ≤ sqlite_sequence (execute s c).2.
Proof.
  unfold execute, aplicar, con_tabla, siguiente_rowid.
  repeat case_match; simpl; lia.
Qed.

Lemma sqlite_sequence_paso self op :
  sqlite_sequence (conn self) ≤ sqlite_sequence (conn (paso self op)).
Proof.
  destruct op as [n c pr|i|i c|i pr|i n]; unfold paso.
  - rewrite anadir_producto_eq.
    pose proof (sqlite_sequence_execute (INSERT (Str.strip n) c pr) (conn self)).
    repeat case_match; cbn [snd] in *; rewrite ?conn_indexar; simpl; lia.
  - rewrite eliminar_producto_eq.
    pose proof (sqlite_sequence_execute (DELETE i) (conn self)).
    repeat case_match; cbn [snd] in *; rewrite ?conn_desindexar; simpl; lia.
  - rewrite actualizar_cantidad_eq.
    pose proof (sqlite_sequence_execute (UPDATE_cantidad c i) (conn self)).
    repeat case_match; cbn [snd] in *; simpl; lia.
  - rewrite actualizar_precio_eq.
    pose proof (sqlite_sequence_execute (UPDATE_precio pr i) (conn self)).
    repeat case_match; cbn [snd] in *; simpl; lia.
  - rewrite actualizar_nombre_eq.
    pose proof (sqlite_sequence_execute (UPDATE_nombre (Str.strip n) i) (conn self)).
    repeat case_match; cbn [snd] in *; rewrite ?conn_reindexar_nombre; simpl; lia.
Qed.

Lemma sqlite_sequence_ejecutar ops self :
  sqlite_sequence (conn self) ≤ sqlite_sequence (conn (ejecutar ops self)).
Proof.
  unfold ejecutar. revert self.
  induction ops as [|op ops IH]; intros self; simpl; [lia|].
  pose proof (sqlite_sequence_paso self op). specialize (IH (paso self op)). lia.
Qed.

(** The id of a created object is the counter after the call, above the
    counter before it. *)
Lemma anadir_producto_id n c pr self p self' :
  anadir_producto n c pr self = (inr p, self') →
  ∃ i, id p = Some i ∧ 1 ≤ i
       ∧ sqlite_sequence (conn self) < i
       ∧ sqlite_sequence (conn self') = i.
Proof.
  rewrite anadir_producto_eq.
  destruct ((c <? 0) || PrimFloat.ltb pr 0%float); [done|].
  destruct (execute _ _) as [[e|i] c'] eqn:E; [done|].
  intros [= <- <-]. exists i. rewrite conn_indexar. simpl.
  pose proof (execute_INSERT _ _ _ _ _ _ E) as (_ & _ & Hi & _).
  unfold execute, aplicar, siguiente_rowid in E.
  repeat case_match; simplify_eq; simpl in *. split_and!; try done; lia.
Qed.

(** X2. Ids grow: in any state, an object created after another one, with
    any calls in between (deletes included), gets a strictly larger id; ids
    start at 1 at the least. So the id of a deleted object is never given
    again. *)
Theorem X2_ids_strictly_increase
    (self self1 self2 : Inventario) (ops : list Operacion)
    (n1 n2 : string) (c1 c2 : Z) (pr1 pr2 : float) (p1 p2 : Producto) :
  anadir_producto n1 c1 pr1 self = (inr p1, self1) →
  anadir_producto n2 c2 pr2 (ejecutar ops self1) = (inr p2, self2) →
  ∃ i1 i2, id p1 = Some i1 ∧ id p2 = Some i2 ∧ 1 ≤ i1 ∧ i1 < i2.
Proof.
  intros (i1 & Hi1 & Hpos & _ & Hs1)%anadir_producto_id
         (i2 & Hi2 & _ & Hlt & _)%anadir_producto_id.
  exists i1, i2. split_and!; try done.
  pose proof (sqlite_sequence_ejecutar ops self1). lia.
Qed.

Lemma X2_ids_strictly_increase_witness :
  ∃ i1 i2, id (mkProducto (Some 1) "a" 1 1%float) = Some i1
           ∧ id (mkProducto (Some 2) "b" 1 1%float) = Some i2
           ∧ 1 ≤ i1 ∧ i1 < i2.
Proof.
  apply (X2_ids_strictly_increase (__init__ db_nueva)
           (anadir_producto "a" 1 1%float (__init__ db_nueva)).2
           (anadir_producto "b" 1 1%float
              (ejecutar [Eliminar 1]
                 (anadir_producto "a" 1 1%float (__init__ db_nueva)).2)).2
           [Eliminar 1] "a" "b" 1 1 1%float 1%float).
  - vm_compute. reflexivity.
  - vm_compute. reflexivity.
Defined.

(** ** What a search returns *)

Lemma prefix_refl s : String.prefix s s = true.
Proof.
  induction s as [|a s IH]; simpl; [done|]. by destruct (ascii_dec a a).
Qed.

Lemma contains_refl s : Str.contains s s = true.
Proof. destruct s; cbn [Str.contains]; by rewrite prefix_refl. Qed.

(** Under the invariant no object is held twice. *)
Lemma NoDup_values self : Inv self → NoDup (dict_values (_productos_por_id self)).
Proof.
  intros [Hnd Hids _ _ _]. apply (NoDup_fmap_1 clave_orden).
  rewrite clave_orden_values; [done|].
  intros k p Hin. apply Hids. by apply elem_of_list_to_map.
Qed.

Lemma NoDup_omap_inj {A B} (f : A → option B) (l : list A) :
  (∀ x y z, x ∈ l → y ∈ l → f x = Some z → f y = Some z → x = y) →
  NoDup l → NoDup (omap f l).
Proof.
  intros Hinj Hnd. induction Hnd as [|x l Hx Hnd IH]; simpl; [constructor|].
  assert (NoDup (omap f l)) as Hl.
  { apply IH. intros a b z Ha Hb. apply Hinj; apply elem_of_cons; by right. }
  destruct (f x) as [z|] eqn:Hz; [|done].
  constructor; [|done]. intros (y & Hy & Hfy)%list_elem_of_omap.
  apply Hx. rewrite (Hinj x y z); try done; apply elem_of_cons; auto.
Qed.

Lemma NoDup_exactos self consulta : Inv self → NoDup (exactos self consulta).
Proof.
  intros HI. unfold exactos. apply NoDup_omap_inj; [|apply NoDup_elements].
  intros i j p _ _ Hi Hj. rewrite dict_get_vista in Hi, Hj.
  pose proof (inv_ids _ HI i p Hi). pose proof (inv_ids _ HI j p Hj). congruence.
Qed.

(** An object of the exact tier is held and has the normalized name asked. *)
Lemma exactos_valores self consulta p :
  Inv self → p ∈ exactos self consulta →
  p ∈ dict_values (_productos_por_id self)
  ∧ _normaliza (nombre p) = _normaliza consulta.
Proof.
  intros HI (i & Hi & Hp)%elem_of_exactos. split.
  - apply elem_of_values; [by destruct HI|]. exists i.
    by rewrite <- dict_get_vista.
  - apply (elem_of_conjunto_exacto _ _ _ HI) in Hi as (p' & Hp' & Hn).
    congruence.
Qed.

(** Whatever a search returns is held in the dict. *)
Lemma buscar_por_nombre_valores self consulta r p :
  Inv self → valor (buscar_por_nombre consulta self) = inr r → p ∈ r →
  p ∈ dict_values (_productos_por_id self).
Proof.
  intros HI Hr Hp. rewrite buscar_por_nombre_eq in Hr by done.
  unfold valor in Hr. simpl in Hr. injection Hr as <-.
  destruct (exactos self consulta) as [|p0 l] eqn:Er.
  - unfold por_subcadena in Hp.
    by apply list_elem_of_In, filter_In in Hp as [Hp%list_elem_of_In _].
  - rewrite <- Er in Hp. by apply (exactos_valores _ consulta).
Qed.

(** X3. A search is sound and complete: on a rebuilt layer after any
    sequence of calls, [buscar_por_nombre] returns, without raising, a list
    with no object twice; every object of it is held in the dict and has a
    normalized name that contains the normalized query; every held object
    whose normalized name is the normalized query is in it; and it is empty
    exactly when no held object's normalized name contains the normalized
    query. *)
Theorem X3_search_sound_complete
    (c : Conexion) (ops : list Operacion) (consulta : string) :
  let self := ejecutar ops (__init__ c) in
  let coincide p :=
    Str.contains (_normaliza consulta) (_normaliza (nombre p)) in
  ∃ r, buscar_por_nombre consulta self = (inr r, self)
    ∧ NoDup r
    ∧ (∀ p, p ∈ r →
         p ∈ dict_values (_productos_por_id self) ∧ coincide p = true)
    ∧ (∀ p, p ∈ dict_values (_productos_por_id self) →
         _normaliza (nombre p) = _normaliza consulta → p ∈ r)
    ∧ (r = [] ↔
       ∀ p, p ∈ dict_values (_productos_por_id self) → coincide p = false).
Proof.
  intros self coincide.
  pose proof (Inv_alcanzable c ops) as HI. fold self in HI.
  eexists. split; [by apply buscar_por_nombre_eq|].
  assert (∀ p, p ∈ dict_values (_productos_por_id self) →
               _normaliza (nombre p) = _normaliza consulta →
               p ∈ exactos self consulta) as Hcompleto.
  { intros p [i Hi]%elem_of_values Hn; [|by destruct HI].
    apply elem_of_exactos. exists i. rewrite dict_get_vista. split; [|done].
    apply (elem_of_conjunto_exacto _ _ _ HI). exists p.
    by rewrite dict_get_vista. }
  destruct (exactos self consulta) as [|p0 l] eqn:Er.
  - (* the scan *)
    unfold por_subcadena. fold coincide. split_and!.
    + apply NoDup_ListNoDup, List.NoDup_filter, NoDup_ListNoDup, NoDup_values, HI.
    + intros p Hp. apply list_elem_of_In, filter_In in Hp as [Hp Hc].
      by apply list_elem_of_In in Hp.
    + intros p Hp Hn. specialize (Hcompleto p Hp Hn). by apply elem_of_nil in Hcompleto.
    + split.
      * intros Hnil p Hp. destruct (coincide p) eqn:Hc; [|done].
        assert (p ∈ List.filter coincide (dict_values (_productos_por_id self)))
          as Hin by (apply list_elem_of_In, filter_In; by rewrite <- list_elem_of_In).
        rewrite Hnil in Hin. by apply elem_of_nil in Hin.
      * intros Hall.
        destruct (List.filter coincide _) as [|q l] eqn:Ef; [done|].
        assert (q ∈ List.filter coincide (dict_values (_productos_por_id self)))
          as Hin by (rewrite Ef; apply elem_of_cons; by left).
        apply list_elem_of_In, filter_In in Hin as [Hin%list_elem_of_In Hc].
        rewrite (Hall q Hin) in Hc. done.
  - (* the exact tier *)
    rewrite <- Er in *. split_and!.
    + by apply NoDup_exactos.
    + intros p Hp. destruct (exactos_valores _ _ _ HI Hp) as [Hv Hn].
      split; [done|]. unfold coincide. rewrite Hn. apply contains_refl.
    + done.
    + split; [by rewrite Er|]. intros Hall. exfalso.
      assert (p0 ∈ exactos self consulta) as Hp0
        by (rewrite Er; apply elem_of_cons; by left).
      destruct (exactos_valores _ _ _ HI Hp0) as [Hv Hn].
      specialize (Hall p0 Hv). unfold coincide in Hall.
      by rewrite Hn, contains_refl in Hall.
Qed.

(** ** Delete, then read *)

Lemma dict_get_pop (d : list (Z * Producto)) k j :
  NoDup d.*1 →
  dict_get (dict_pop d k) j = if decide (j = k) then None else dict_get d j.
Proof.
  intros Hnd. rewrite !dict_get_vista, vista_pop by done. case_decide as Hj.
  - subst. apply lookup_delete_eq.
  - by apply lookup_delete_ne.
Qed.

(** Under the invariant a held object with id [i] is the one under [i]. *)
Lemma valores_id self p i :
  Inv self → p ∈ dict_values (_productos_por_id self) → id p = Some i →
  dict_get (_productos_por_id self) i = Some p.
Proof.
  intros HI Hp Hi. rewrite dict_get_vista. by apply valor_con_id.
Qed.

(** X4. Delete, then read: on a rebuilt layer after any sequence of calls,
    once [eliminar_producto] has returned True for an id, [obtener_por_id]
    of that id returns None, no search and no listing returns an object of
    that id, every other id reads as before, and a second
    [eliminar_producto] of the id returns False and changes nothing. *)
Theorem X4_delete_then_read
    (c : Conexion) (ops : list Operacion) (i : Z) (self' : Inventario) :
  let self := ejecutar ops (__init__ c) in
  eliminar_producto i self = (inr true, self') →
  valor (obtener_por_id i self') = inr None
  ∧ (∀ j, j ≠ i →
       valor (obtener_por_id j self') = valor (obtener_por_id j self))
  ∧ (∀ consulta r p,
       valor (buscar_por_nombre consulta self') = inr r → p ∈ r →
       id p ≠ Some i)
  ∧ (∀ r p, valor (listar_todos self') = inr r → p ∈ r → id p ≠ Some i)
  ∧ eliminar_producto i self' = (inr false, self').
Proof.
  intros self Hdel. pose proof (Inv_alcanzable c ops) as HI. fold self in HI.
  pose proof (Inv_eliminar_producto i self HI) as HI'.
  rewrite Hdel in HI'. cbn [snd] in HI'.
  rewrite eliminar_producto_eq in Hdel.
  destruct (dict_get (_productos_por_id self) i) as [p0|] eqn:Hp0; [|done].
  destruct (execute _ _) as [[e|r0] c']; [done|].
  injection Hdel as <-.
  assert (id p0 = Some i) as Hid0.
  { apply (inv_ids _ HI). by rewrite <- dict_get_vista. }
  unfold _desindexar in *. rewrite Hid0 in *.
  assert (∀ j, dict_get (dict_pop (_productos_por_id self) i) j
               = if decide (j = i) then None else dict_get (_productos_por_id self) j)
    as Hget by (intros j; apply dict_get_pop; by destruct HI).
  assert (∀ p, p ∈ dict_values (dict_pop (_productos_por_id self) i) →
               id p ≠ Some i) as Hfuera.
  { intros p Hp Hi. apply (valores_id _ _ _ HI' Hp) in Hi. simpl in Hi.
    rewrite Hget in Hi. by case_decide. }
  unfold valor, obtener_por_id, listar_todos, leer. simpl. split_and!.
  - rewrite Hget. by case_decide.
  - intros j Hj. rewrite Hget. by case_decide.
  - intros consulta r p Hr Hp. apply Hfuera.
    apply (buscar_por_nombre_valores _ consulta r p HI' Hr Hp).
  - intros r p [= <-] Hp. apply Hfuera. by rewrite sorted_perm in Hp.
  - rewrite eliminar_producto_eq. simpl. rewrite Hget. by case_decide.
Qed.

Lemma X4_delete_then_read_witness :
  valor (obtener_por_id 1 (eliminar_producto 1 ejemplo_pen).2) = inr None
  ∧ eliminar_producto 1 (eliminar_producto 1 ejemplo_pen).2
    = (inr false, (eliminar_producto 1 ejemplo_pen).2).
Proof.
  destruct (X4_delete_then_read db_nueva [Anadir "Pen" 3 1.5%float] 1
              (eliminar_producto 1 ejemplo_pen).2) as (H1 & _ & _ & _ & H5).
  - vm_compute. reflexivity.
  - split; [exact H1|exact H5].
Defined.

(** ** Updates of quantity and price *)

(** X5. An update of the quantity or of the price changes one field of one
    object: in any state, when [actualizar_cantidad] (resp.
    [actualizar_precio]) returns True, the id was held, the setter of
    [Producto] accepts the value, [obtener_por_id] of the id now returns the
    old object with that one field replaced (same id, name and other
    field), every other id reads as before, the keys of the dict keep their
    order and the name index is the same map. For an id that is not held
    and a value that is not negative the call returns False and changes
    nothing, no statement being handed to [execute]. *)
Theorem X5_update_changes_one_field
    (self self' : Inventario) (i cant : Z) (pr : float) :
  (actualizar_cantidad i cant self = (inr true, self') →
     ∃ p, dict_get (_productos_por_id self) i = Some p
       ∧ Producto_set_cantidad cant p
         = inr (mkProducto (id p) (nombre p) cant (precio p))
       ∧ obtener_por_id i self'
         = (inr (Some (mkProducto (id p) (nombre p) cant (precio p))), self')
       ∧ (∀ j, j ≠ i →
            valor (obtener_por_id j self') = valor (obtener_por_id j self))
       ∧ dict_keys (_productos_por_id self') = dict_keys (_productos_por_id self)
       ∧ _nombre_idx self' = _nombre_idx self)
  ∧ (actualizar_precio i pr self = (inr true, self') →
       ∃ p, dict_get (_productos_por_id self) i = Some p
         ∧ Producto_set_precio pr p
           = inr (mkProducto (id p) (nombre p) (cantidad p) pr)
         ∧ obtener_por_id i self'
           = (inr (Some (mkProducto (id p) (nombre p) (cantidad p) pr)), self')
         ∧ (∀ j, j ≠ i →
              valor (obtener_por_id j self') = valor (obtener_por_id j self))
         ∧ dict_keys (_productos_por_id self') = dict_keys (_productos_por_id self)
         ∧ _nombre_idx self' = _nombre_idx self)
  ∧ (dict_get (_productos_por_id self) i = None →
       (0 ≤ cant → actualizar_cantidad i cant self = (inr false, self))
       ∧ (PrimFloat.ltb pr 0%float = false →
            actualizar_precio i pr self = (inr false, self))).
Proof.
  split_and!.
  - rewrite actualizar_cantidad_eq. destruct (cant <? 0) eqn:Hc; [done|].
    destruct (dict_get _ _) as [p|] eqn:Hp; [|done].
    destruct (execute _ _) as [[e|r] c']; [done|]. intros [= <-].
    exists p. unfold Producto_set_cantidad, valor, obtener_por_id, leer, dict_keys.
    rewrite Hc. simpl. split_and!; try done.
    + rewrite dict_get_set. by case_decide.
    + intros j Hj. rewrite dict_get_set. by case_decide.
    + apply dict_set_keys. by rewrite Hp.
  - rewrite actualizar_precio_eq.
    destruct (PrimFloat.ltb pr 0%float) eqn:Hc; [done|].
    destruct (dict_get _ _) as [p|] eqn:Hp; [|done].
    destruct (execute _ _) as [[e|r] c']; [done|]. intros [= <-].
    exists p. unfold Producto_set_precio, valor, obtener_por_id, leer, dict_keys.
    rewrite Hc. simpl. split_and!; try done.
    + rewrite dict_get_set. by case_decide.
    + intros j Hj. rewrite dict_get_set. by case_decide.
    + apply dict_set_keys. by rewrite Hp.
  - intros Hi. split.
    + intros Hc. rewrite actualizar_cantidad_eq, Hi.
      apply Z.ltb_ge in Hc. by rewrite Hc.
    + intros Hc. by rewrite actualizar_precio_eq, Hi, Hc.
Qed.

Lemma X5_update_changes_one_field_witness :
  obtener_por_id 1 (actualizar_cantidad 1 9 ejemplo_pen).2
  = (inr (Some (mkProducto (Some 1) "Pen" 9 1.5%float)),
     (actualizar_cantidad 1 9 ejemplo_pen).2)
  ∧ actualizar_cantidad 5 9 ejemplo_pen = (inr false, ejemplo_pen).
Proof.
  destruct (X5_update_changes_one_field ejemplo_pen
              (actualizar_cantidad 1 9 ejemplo_pen).2 1 9 0%float)
    as (Hc & _ & _).
  destruct Hc as (p & Hp & _ & Hget & _); [vm_compute; reflexivity|].
  vm_compute in Hp. injection Hp as <-. split; [exact Hget|].
  destruct (X5_update_changes_one_field ejemplo_pen ejemplo_pen 5 9 0%float)
    as (_ & _ & Hf).
  destruct Hf as [Hf _]; [vm_compute; reflexivity|]. apply Hf. lia.
Defined.

(** ** ValueError *)

(** X6. A ValueError means that nothing happened: in any state, a call
    raises ValueError only for a negative quantity or price, in
    [anadir_producto], [actualizar_cantidad] or [actualizar_precio], and
    then the object is exactly as before: the test of the setter of
    [Producto], which runs after the table was written, never fails.
    [eliminar_producto] and [actualizar_nombre] never raise ValueError. *)
Theorem X6_value_error_means_untouched (self : Inventario) (op : Operacion) :
  lanzada self op = Some ValueError →
  paso self op = self
  ∧ match op with
    | Anadir _ cant pr => cant < 0 ∨ PrimFloat.ltb pr 0%float = true
    | ActualizarCantidad _ cant => cant < 0
    | ActualizarPrecio _ pr => PrimFloat.ltb pr 0%float = true
    | Eliminar _ | ActualizarNombre _ _ => False
    end.
Proof.
  assert (∀ s c e c', execute s c = (inl e, c') → e ≠ ValueError) as Hex.
  { intros s c e c'. unfold execute, aplicar.
    repeat case_match; intros; simplify_eq; done. }
  destruct op as [n c pr|i|i c|i pr|i n]; unfold lanzada, paso.
  - rewrite anadir_producto_eq.
    destruct (c <? 0) eqn:Hc; simpl.
    { intros _. split; [done|]. left. by apply Z.ltb_lt. }
    destruct (PrimFloat.ltb pr 0%float) eqn:Hp; simpl.
    { intros _. split; [done|]. by right. }
    destruct (execute _ _) as [[e|r] c'] eqn:E; simpl; [|done].
    intros [= ->]. by apply Hex in E.
  - rewrite eliminar_producto_eq. destruct (dict_get _ _); [|done].
    destruct (execute _ _) as [[e|r] c'] eqn:E; simpl; [|done].
    intros [= ->]. by apply Hex in E.
  - rewrite actualizar_cantidad_eq.
    destruct (c <? 0) eqn:Hc; simpl.
    { intros _. split; [done|]. by apply Z.ltb_lt. }
    destruct (dict_get _ _); [|done].
    destruct (execute _ _) as [[e|r] c'] eqn:E; simpl; [|done].
    intros [= ->]. by apply Hex in E.
  - rewrite actualizar_precio_eq.
    destruct (PrimFloat.ltb pr 0%float) eqn:Hp; simpl; [done|].
    destruct (dict_get _ _); [|done].
    destruct (execute _ _) as [[e|r] c'] eqn:E; simpl; [|done].
    intros [= ->]. by apply Hex in E.
  - rewrite actualizar_nombre_eq. destruct (dict_get _ _); [|done].
    destruct (execute _ _) as [[e|r] c'] eqn:E; simpl; [|done].
    intros [= ->]. by apply Hex in E.
Qed.

Lemma X6_value_error_means_untouched_witness :
  paso ejemplo_pen (ActualizarCantidad 1 (-4)) = ejemplo_pen ∧ -4 < 0.
Proof.
  apply (X6_value_error_means_untouched ejemplo_pen (ActualizarCantidad 1 (-4))).
  vm_compute. reflexivity.
Defined.

(** ** The exceptions of the connection *)











(** ** The name index is a function of the names *)

(** Two indexes without empty sets, each in step with its dict, are the same
    map when the dicts give the same normalized name to the same ids. *)
Lemma idx_unico (m1 m2 : gmap Z Producto) (idx1 idx2 : gmap string (gset Z)) :
  idx_ok m1 idx1 → idx_ok m2 idx2 → sin_vacios idx1 → sin_vacios idx2 →
  (∀ i, _normaliza ∘ nombre <$> m1 !! i = _normaliza ∘ nombre <$> m2 !! i) →
  idx1 = idx2.
Proof.
  intros H1 H2 Hv1 Hv2 Hn.
  assert (∀ k i, en_idx idx1 k i ↔ en_idx idx2 k i) as Heq.
  { intros k i. rewrite (H1 k i), (H2 k i). specialize (Hn i).
    destruct (m1 !! i) as [p1|], (m2 !! i) as [p2|]; simplify_eq/=;
      naive_solver. }
  apply map_eq. intros k.
  destruct (idx1 !! k) as [s1|] eqn:E1, (idx2 !! k) as [s2|] eqn:E2.
  - f_equal. apply set_eq. intros i. specialize (Heq k i). unfold en_idx in Heq.
    rewrite E1, E2 in Heq. naive_solver.
  - destruct (set_choose_L s1 (Hv1 k s1 E1)) as [i Hi].
    assert (en_idx idx2 k i) as (s & Hs & _) by (apply Heq; by exists s1).
    congruence.
  - destruct (set_choose_L s2 (Hv2 k s2 E2)) as [i Hi].
    assert (en_idx idx1 k i) as (s & Hs & _) by (apply Heq; by exists s2).
    congruence.
  - done.
Qed.

(** X8. A rename that keeps the normalized name keeps the index: on a
    rebuilt layer after any sequence of calls, when [actualizar_nombre]
    returns True for a new name with the normalization of the old one (a
    change of case or of surrounding whitespace), [_nombre_idx] is the same
    map as before, although the id was discarded and indexed again, and
    [obtener_por_id] returns the object with the stripped new name and its
    other fields as they were. *)
Theorem X8_rename_same_key_keeps_index
    (c : Conexion) (ops : list Operacion) (i : Z) (X : string)
    (p : Producto) (self' : Inventario) :
  let self := ejecutar ops (__init__ c) in
  dict_get (_productos_por_id self) i = Some p →
  _normaliza X = _normaliza (nombre p) →
  actualizar_nombre i X self = (inr true, self') →
  _nombre_idx self' = _nombre_idx self
  ∧ obtener_por_id i self'
    = (inr (Some (mkProducto (id p) (Str.strip X) (cantidad p) (precio p))),
       self').
Proof.
  intros self Hp Hn Hren.
  pose proof (Inv_alcanzable c ops) as HI. fold self in HI.
  destruct (actualizar_nombre_ok self i X p self' HI Hp Hren) as [HI' Hv].
  split.
  - apply (idx_unico (vista (_productos_por_id self'))
                     (vista (_productos_por_id self)));
      try (by destruct HI); try (by destruct HI').
    intros j. rewrite Hv. destruct (decide (i = j)) as [<-|Hne].
    + rewrite lookup_insert_eq, <- dict_get_vista, Hp. simpl.
      by rewrite _normaliza_strip, Hn.
    + by rewrite lookup_insert_ne.
  - unfold obtener_por_id, leer. by rewrite dict_get_vista, Hv, lookup_insert_eq.
Qed.

Lemma X8_rename_same_key_keeps_index_witness :
  _nombre_idx (actualizar_nombre 1 "  PEN " ejemplo_pen).2
  = _nombre_idx ejemplo_pen
  ∧ obtener_por_id 1 (actualizar_nombre 1 "  PEN " ejemplo_pen).2
    = (inr (Some (mkProducto (Some 1) "PEN" 3 1.5%float)),
       (actualizar_nombre 1 "  PEN " ejemplo_pen).2).
Proof.
  apply (X8_rename_same_key_keeps_index db_nueva [Anadir "Pen" 3 1.5%float] 1
           "  PEN " (mkProducto (Some 1) "Pen" 3 1.5%float)).
  - vm_compute. reflexivity.
  - vm_compute. reflexivity.
  - vm_compute. reflexivity.
Defined.

(** ** Rebuilding from the table *)

Lemma _cargar_desde_db__init__ self : _cargar_desde_db self = __init__ (conn self).
Proof. reflexivity. Qed.

(** X9. The rebuild is a round trip: on a rebuilt layer after any sequence
    of calls, running [_cargar_desde_db] again (what a restart of the
    program does) leaves the connection alone and gives the same name index
    and, under every id, the same object as the cache held, as Python's
    [==] compares objects (a price of negative zero comes back as zero). *)
Theorem X9_rebuild_round_trip (c : Conexion) (ops : list Operacion) :
  let self := ejecutar ops (__init__ c) in
  let self2 := _cargar_desde_db self in
  conn self2 = conn self
  ∧ _nombre_idx self2 = _nombre_idx self
  ∧ ∀ i, tupla_py ∘ to_tuple <$> dict_get (_productos_por_id self2) i
         = tupla_py ∘ to_tuple <$> dict_get (_productos_por_id self) i.
Proof.
  intros self self2. pose proof (Inv_alcanzable c ops) as HI. fold self in HI.
  assert (Inv self2) as HI2 by apply Inv__init__.
  assert (conn self2 = conn self) as Hconn by apply conn__init__.
  assert (∀ i, fila_py ∘ fila_de <$> vista (_productos_por_id self2) !! i
               = fila_py ∘ fila_de <$> vista (_productos_por_id self) !! i)
    as Hfilas.
  { intros i. rewrite (espejo_lookup _ _ i (inv_espejo _ HI2)), Hconn.
    symmetry. apply (espejo_lookup _ _ i (inv_espejo _ HI)). }
  split_and!; [done| |].
  - apply (idx_unico (vista (_productos_por_id self2))
                     (vista (_productos_por_id self)));
      try (by destruct HI); try (by destruct HI2).
    intros i. specialize (Hfilas i).
    destruct (vista (_productos_por_id self2) !! i) as [p2|],
             (vista (_productos_por_id self) !! i) as [p1|];
      simplify_eq/=; [|done]. by f_equal; f_equal.
  - intros i. specialize (Hfilas i). rewrite !dict_get_vista.
    destruct (vista (_productos_por_id self2) !! i) as [p2|] eqn:E2,
             (vista (_productos_por_id self) !! i) as [p1|] eqn:E1;
      simplify_eq/=; [|done].
    unfold tupla_py, to_tuple. simpl.
    rewrite (inv_ids _ HI2 i p2 E2), (inv_ids _ HI i p1 E1). congruence.
Qed.

(** ** Quantities and prices stay non-negative *)

Lemma check_precio_real_almacenado pr :
  check_precio pr = true → check_precio (real_almacenado pr) = true.
Proof.
  unfold real_almacenado. by destruct (PrimFloat.eqb pr 0%float).
Qed.

(** An UPDATE of the price that reached a row passed its CHECK. *)
Lemma execute_UPDATE_precio_check pr i c r c' :
  execute (UPDATE_precio pr i) c = (inr r, c') →
  is_Some (productos c !! i) → check_precio pr = true.
Proof.
  unfold execute, aplicar. intros H [f Hf]. simpl in H. rewrite Hf in H.
  repeat case_match; simplify_eq. by apply negb_false_iff.
Qed.

(** The objects the rebuild loop adds are made from the fetched rows. *)
Lemma cargar_origen rows : ∀ self k p,
  vista (_productos_por_id (cargar rows self)) !! k = Some p →
  vista (_productos_por_id self) !! k = Some p
  ∨ ∃ f, (k, f) ∈ rows ∧ p = producto_de (k, f).
Proof.
  induction rows as [|[k' f'] rows IH]; intros self k p Hp; [by left|].
  change (cargar ((k', f') :: rows) self)
    with (cargar rows (_indexar (producto_de (k', f')) self)) in Hp.
  apply IH in Hp as [Hp|(f & Hin & ->)].
  - rewrite (_indexar_Some _ k') in Hp by done. simpl in Hp.
    rewrite vista_set in Hp. destruct (decide (k' = k)) as [->|Hne].
    + rewrite lookup_insert_eq in Hp. injection Hp as <-.
      right. exists f'. split; [apply elem_of_cons; by left|done].
    + rewrite lookup_insert_ne in Hp by done. by left.
  - right. exists f. split; [apply elem_of_cons; by right|done].
Qed.

Lemma no_negativo__init__ c k p :
  tabla_no_negativa c →
  vista (_productos_por_id (__init__ c)) !! k = Some p → no_negativo p.
Proof.
  intros Hc Hp. unfold __init__ in Hp. rewrite _cargar_desde_db_eq in Hp.
  apply cargar_origen in Hp as [Hp|(f & Hin & ->)]; [done|].
  apply elem_of_map_to_list in Hin. apply (Hc k f Hin).
Qed.

Lemma no_negativo_paso self op :
  Inv self →
  (∀ k p, vista (_productos_por_id self) !! k = Some p → no_negativo p) →
  tabla_no_negativa (conn self) →
  (∀ k p, vista (_productos_por_id (paso self op)) !! k = Some p → no_negativo p)
  ∧ tabla_no_negativa (conn (paso self op)).
Proof.
  intros HI Hm Ht.
  assert (∀ c', productos c' = productos (conn self) → tabla_no_negativa c')
    as Hsame by (intros c' Hc' k f; rewrite Hc'; apply Ht).
  destruct op as [n cant pr|i|i cant|i pr|i n]; unfold paso.
  - rewrite anadir_producto_eq.
    destruct ((cant <? 0) || PrimFloat.ltb pr 0%float); [done|].
    destruct (execute _ _) as [[e|j] c'] eqn:E; cbn [snd].
    { split; [done|]. apply Hsame. by apply execute_error in E as [? _]. }
    apply execute_INSERT in E as (Hc' & _ & _ & Hcant & Hpr).
    rewrite (_indexar_Some _ j) by done. simpl. rewrite vista_set. split.
    + intros k p. destruct (decide (j = k)) as [<-|Hne].
      * rewrite lookup_insert_eq. by intros [= <-].
      * rewrite lookup_insert_ne by done. apply Hm.
    + intros k f. rewrite Hc'. destruct (decide (j = k)) as [<-|Hne].
      * rewrite lookup_insert_eq. intros [= <-]. simpl. split; [done|].
        by apply check_precio_real_almacenado.
      * rewrite lookup_insert_ne by done. apply Ht.
  - rewrite eliminar_producto_eq.
    destruct (dict_get _ _) as [p0|] eqn:Hp0; [|done].
    destruct (execute _ _) as [[e|r] c'] eqn:E; cbn [snd].
    { split; [done|]. apply Hsame. by apply execute_error in E as [? _]. }
    apply execute_DELETE in E as [Hc' _].
    unfold _desindexar. destruct (id p0); simpl.
    + rewrite vista_pop by (by destruct HI). split.
      * intros k p [_ Hp]%lookup_delete_Some. by apply (Hm k).
      * intros k f. rewrite Hc'. intros [_ Hf]%lookup_delete_Some.
        by apply (Ht k).
    + split; [done|]. intros k f. rewrite Hc'.
      intros [_ Hf]%lookup_delete_Some. by apply (Ht k).
  - rewrite actualizar_cantidad_eq.
    destruct (cant <? 0) eqn:Hcant; [done|]. apply Z.ltb_ge in Hcant.
    destruct (dict_get _ _) as [p0|] eqn:Hp0; [|done].
    destruct (execute _ _) as [[e|r] c'] eqn:E; cbn [snd].
    { split; [done|]. apply Hsame. by apply execute_error in E as [? _]. }
    apply execute_UPDATE_cantidad in E as Hc'. simpl. rewrite vista_set.
    rewrite dict_get_vista in Hp0. split.
    + intros k p. destruct (decide (i = k)) as [<-|Hne].
      * rewrite lookup_insert_eq. intros [= <-].
        split; [done|]. apply (Hm i p0 Hp0).
      * rewrite lookup_insert_ne by done. apply Hm.
    + intros k f. rewrite Hc'.
      intros [(_ & f0 & Hf0 & ->)|[_ Hf]]%lookup_alter_Some; [|by apply (Ht k)].
      simpl. split; [done|]. apply (Ht k f0 Hf0).
  - rewrite actualizar_precio_eq.
    destruct (PrimFloat.ltb pr 0%float); [done|].
    destruct (dict_get _ _) as [p0|] eqn:Hp0; [|done].
    destruct (execute _ _) as [[e|r] c'] eqn:E; cbn [snd].
    { split; [done|]. apply Hsame. by apply execute_error in E as [? _]. }
    rewrite dict_get_vista in Hp0.
    assert (check_precio pr = true) as Hpr.
    { apply (execute_UPDATE_precio_check _ _ _ _ _ E).
      destruct (espejo_Some _ _ i p0 (inv_espejo _ HI) Hp0) as (f & -> & _).
      by eexists. }
    apply execute_UPDATE_precio in E as Hc'. simpl. rewrite vista_set. split.
    + intros k p. destruct (decide (i = k)) as [<-|Hne].
      * rewrite lookup_insert_eq. intros [= <-].
        split; [apply (Hm i p0 Hp0)|done].
      * rewrite lookup_insert_ne by done. apply Hm.
    + intros k f. rewrite Hc'.
      intros [(_ & f0 & Hf0 & ->)|[_ Hf]]%lookup_alter_Some; [|by apply (Ht k)].
      simpl. split; [apply (Ht k f0 Hf0)|].
      by apply check_precio_real_almacenado.
  - rewrite actualizar_nombre_eq.
    destruct (dict_get _ _) as [p0|] eqn:Hp0; [|done].
    destruct (execute _ _) as [[e|r] c'] eqn:E; cbn [snd].
    { split; [done|]. apply Hsame. by apply execute_error in E as [? _]. }
    apply execute_UPDATE_nombre in E as Hc'.
    rewrite dict_get_vista in Hp0.
    rewrite (_reindexar_nombre_Some _ _ i) by (by apply (inv_ids _ HI i p0)).
    simpl. rewrite !vista_set, insert_insert_eq. split.
    + intros k p. destruct (decide (i = k)) as [<-|Hne].
      * rewrite lookup_insert_eq. intros [= <-]. apply (Hm i p0 Hp0).
      * rewrite lookup_insert_ne by done. apply Hm.
    + intros k f. rewrite Hc'.
      intros [(_ & f0 & Hf0 & ->)|[_ Hf]]%lookup_alter_Some; [|by apply (Ht k)].
      apply (Ht k f0 Hf0).
Qed.

(** X10. Quantities and prices stay non-negative: on a layer rebuilt over a
    table whose rows satisfy the two CHECK constraints, after any sequence
    of calls, every object of [_productos_por_id] has a quantity [>= 0] and
    a price [>= 0] (so no NaN either), and so has every row of the table. *)
Theorem X10_non_negative_invariant
    (c : Conexion) (ops : list Operacion) (Hc : tabla_no_negativa c) :
  let self := ejecutar ops (__init__ c) in
  (∀ p, p ∈ dict_values (_productos_por_id self) → no_negativo p)
  ∧ tabla_no_negativa (conn self).
Proof.
  intros self.
  assert ((∀ k p, vista (_productos_por_id self) !! k = Some p → no_negativo p)
          ∧ tabla_no_negativa (conn self)) as [Hm Ht].
  { unfold self, ejecutar.
    assert (Inv (__init__ c)) as HI by apply Inv__init__.
    assert (∀ k p, vista (_productos_por_id (__init__ c)) !! k = Some p →
                   no_negativo p) as Hm
      by (intros k p; by apply no_negativo__init__).
    assert (tabla_no_negativa (conn (__init__ c))) as Ht
      by (by rewrite conn__init__).
    revert HI Hm Ht. generalize (__init__ c).
    induction ops as [|op ops IH]; intros s0 HI Hm Ht; simpl; [done|].
    destruct (no_negativo_paso s0 op HI Hm Ht) as [Hm' Ht'].
    apply IH; [by apply Inv_paso|done..]. }
  split; [|done].
  intros p [k Hk]%elem_of_values; [by apply (Hm k)|].
  apply (inv_nodup _ (Inv_alcanzable c ops)).
Qed.

Lemma X10_non_negative_invariant_witness :
  no_negativo (mkProducto (Some 1) "Pen" 3 1.5%float).
Proof.
  assert (tabla_no_negativa db_nueva) as Hc.
  { intros k f. unfold db_nueva. simpl. by rewrite lookup_empty. }
  apply (proj1 (X10_non_negative_invariant db_nueva [Anadir "Pen" 3 1.5%float] Hc)).
  vm_compute. apply list_elem_of_singleton. reflexivity.
Defined.

(** ** One statement for each accepted call *)

(** X11. One write for each accepted call: in any state, a mutating call
    hands [execute] exactly one statement when its arguments pass the tests
    of the method and its id, if it takes one, is held, and none otherwise;
    the statement carries the stripped name and the values as given. A
    sequence of calls hands over the statements of its calls, in order, and
    the three reads hand over none. *)
Theorem X11_one_statement_per_call (self : Inventario) :
  (∀ op, llamadas (conn (paso self op))
         = llamadas (conn self) ++ sentencias_de self op)
  ∧ (∀ ops, length (llamadas (conn (ejecutar ops self)))
            ≤ length (llamadas (conn self)) + length ops)%nat
  ∧ (∀ consulta i,
       (buscar_por_nombre consulta self).2 = self
       ∧ (listar_todos self).2 = self
       ∧ (obtener_por_id i self).2 = self).
Proof.
  assert (∀ s0 op, llamadas (conn (paso s0 op))
                   = llamadas (conn s0) ++ sentencias_de s0 op) as Hpaso.
  { intros s0 op.
    destruct op as [n cant pr|i|i cant|i pr|i n]; unfold paso, sentencias_de.
    - rewrite anadir_producto_eq.
      destruct ((cant <? 0) || PrimFloat.ltb pr 0%float);
        [by rewrite app_nil_r|].
      pose proof (execute_llamadas (INSERT (Str.strip n) cant pr) (conn s0)).
      destruct (execute _ _) as [[e|j] c']; cbn [snd] in *;
        by rewrite ?conn_indexar.
    - rewrite eliminar_producto_eq.
      destruct (dict_get _ _) as [p|] eqn:Hp.
      + rewrite bool_decide_eq_true_2 by (by eexists).
        pose proof (execute_llamadas (DELETE i) (conn s0)).
        destruct (execute _ _) as [[e|j] c']; cbn [snd] in *;
          by rewrite ?conn_desindexar.
      + rewrite bool_decide_eq_false_2 by (by intros [? ?]).
        by rewrite app_nil_r.
    - rewrite actualizar_cantidad_eq.
      destruct (cant <? 0); [by rewrite app_nil_r|]. simpl.
      destruct (dict_get _ _) as [p|] eqn:Hp.
      + rewrite bool_decide_eq_true_2 by (by eexists). simpl.
        pose proof (execute_llamadas (UPDATE_cantidad cant i) (conn s0)).
        by destruct (execute _ _) as [[e|j] c'].
      + rewrite bool_decide_eq_false_2 by (by intros [? ?]).
        by rewrite app_nil_r.
    - rewrite actualizar_precio_eq.
      destruct (PrimFloat.ltb pr 0%float); [by rewrite app_nil_r|]. simpl.
      destruct (dict_get _ _) as [p|] eqn:Hp.
      + rewrite bool_decide_eq_true_2 by (by eexists). simpl.
        pose proof (execute_llamadas (UPDATE_precio pr i) (conn s0)).
        by destruct (execute _ _) as [[e|j] c'].
      + rewrite bool_decide_eq_false_2 by (by intros [? ?]).
        by rewrite app_nil_r.
    - rewrite actualizar_nombre_eq.
      destruct (dict_get _ _) as [p|] eqn:Hp.
      + rewrite bool_decide_eq_true_2 by (by eexists).
        pose proof (execute_llamadas (UPDATE_nombre (Str.strip n) i) (conn s0)).
        destruct (execute _ _) as [[e|j] c']; cbn [snd] in *;
          by rewrite ?conn_reindexar_nombre.
      + rewrite bool_decide_eq_false_2 by (by intros [? ?]).
        by rewrite app_nil_r. }
  split_and!.
  - apply Hpaso.
  - intros ops. unfold ejecutar. revert self.
    induction ops as [|op ops IH]; intros self; simpl; [lia|].
    specialize (IH (paso self op)). rewrite Hpaso, length_app in IH.
    assert (length (sentencias_de self op) ≤ 1)%nat; [|lia].
    unfold sentencias_de. repeat case_match; simpl; lia.
  - intros consulta i. split_and!; [|done..].
    unfold buscar_por_nombre. desplegar.
    assert (∀ ids acc, (recoger ids acc self).2 = self) as Hrec.
    { induction ids as [|j ids IH]; intros acc; simpl; [done|]. desplegar.
      destruct (dict_get _ _); [apply IH|done]. }
    specialize (Hrec (elements (default ∅ (_nombre_idx self !! _normaliza consulta))) []).
    destruct (recoger _ _ self) as [[e|r] s1]; simpl in *; subst; [done|].
    by destruct r.
Qed.

(** ** Normalization *)

Lemma isspace_lower_char c : Str.isspace (Str.lower_char c) = Str.isspace c.
Proof. by destruct c as [[] [] [] [] [] [] [] []]. Qed.

Lemma lower_char_idemp c : Str.lower_char (Str.lower_char c) = Str.lower_char c.
Proof. by destruct c as [[] [] [] [] [] [] [] []]. Qed.

Lemma lower_idemp s : Str.lower (Str.lower s) = Str.lower s.
Proof.
  induction s as [|c s IH]; simpl; [done|]. by rewrite lower_char_idemp, IH.
Qed.

Lemma lstrip_lower s : Str.lstrip (Str.lower s) = Str.lower (Str.lstrip s).
Proof.
  induction s as [|c s IH]; simpl; [done|].
  rewrite isspace_lower_char. by destruct (Str.isspace c).
Qed.

Lemma rstrip_lower s : Str.rstrip (Str.lower s) = Str.lower (Str.rstrip s).
Proof.
  induction s as [|c s IH]; simpl; [done|].
  rewrite IH, isspace_lower_char.
  destruct (Str.rstrip s); simpl; [|done]. by destruct (Str.isspace c).
Qed.

Lemma strip_lower s : Str.strip (Str.lower s) = Str.lower (Str.strip s).
Proof. unfold Str.strip. by rewrite lstrip_lower, rstrip_lower. Qed.

Lemma _normaliza_idemp s : _normaliza (_normaliza s) = _normaliza s.
Proof.
  unfold _normaliza.
  by rewrite strip_lower, StrFacts.strip_idemp, lower_idemp.
Qed.

(** X12. Normalization is a projection: [_normaliza] applied twice is
    [_normaliza]; it does not see the case of the letters nor the
    whitespace around the string. Hence a search for a query and a search
    for its normalized form are the same call, in every state, and in a
    rebuilt layer after any sequence of calls every key of [_nombre_idx] is
    its own normalization. *)
Theorem X12_normaliza_projection (s : string) :
  _normaliza (_normaliza s) = _normaliza s
  ∧ _normaliza (Str.lower s) = _normaliza s
  ∧ _normaliza (Str.strip s) = _normaliza s
  ∧ (∀ self, buscar_por_nombre (_normaliza s) self = buscar_por_nombre s self)
  ∧ (∀ c ops conj,
       _nombre_idx (ejecutar ops (__init__ c)) !! s = Some conj →
       _normaliza s = s).
Proof.
  split_and!.
  - apply _normaliza_idemp.
  - unfold _normaliza. by rewrite strip_lower, lower_idemp.
  - apply _normaliza_strip.
  - intros self. unfold buscar_por_nombre. by rewrite _normaliza_idemp.
  - intros c ops conj Hs.
    destruct (Inv_alcanzable c ops) as [_ _ _ Hidx Hvac].
    destruct (set_choose_L conj (Hvac s conj Hs)) as [i Hi].
    assert (en_idx (_nombre_idx (ejecutar ops (__init__ c))) s i) as Hen
      by (by exists conj).
    apply Hidx in Hen as (p & _ & <-). apply _normaliza_idemp.
Qed.

(** ** A search that raises *)

Lemma recoger_KeyError ids : ∀ acc self,
  (∃ i, i ∈ ids ∧ dict_get (_productos_por_id self) i = None) →
  recoger ids acc self = (inl KeyError, self).
Proof.
  induction ids as [|j ids IH]; intros acc self (i & Hi & Hnone).
  - by apply elem_of_nil in Hi.
  - simpl. desplegar. destruct (dict_get (_productos_por_id self) j) eqn:Hj.
    + apply IH. exists i. split; [|done].
      apply elem_of_cons in Hi as [->|Hi]; [congruence|done].
    + done.
Qed.

(** X13. When a search raises: in any state, [buscar_por_nombre] raises
    KeyError exactly when the set under the normalized query holds an id
    that [_productos_por_id] lacks; otherwise it returns a list; either way
    the object is unchanged. (By C9 no state reached from a rebuilt layer
    has such an id.) *)
Theorem X13_search_key_error (self : Inventario) (consulta : string) :
  let colgado :=
    ∃ i, i ∈ conjunto_exacto self consulta
         ∧ dict_get (_productos_por_id self) i = None in
  (colgado → buscar_por_nombre consulta self = (inl KeyError, self))
  ∧ (¬ colgado → ∃ r, buscar_por_nombre consulta self = (inr r, self))
  ∧ (∀ e, valor (buscar_por_nombre consulta self) = inl e →
          e = KeyError ∧ colgado).
Proof.
  intros colgado.
  assert (colgado → buscar_por_nombre consulta self = (inl KeyError, self))
    as Hsi.
  { intros (i & Hi & Hnone). unfold buscar_por_nombre. desplegar.
    fold (conjunto_exacto self consulta). rewrite recoger_KeyError; [done|].
    exists i. by rewrite elem_of_elements. }
  assert (¬ colgado → ∃ r, buscar_por_nombre consulta self = (inr r, self))
    as Hno.
  { intros Hn. unfold buscar_por_nombre. desplegar.
    fold (conjunto_exacto self consulta). rewrite recoger_ok.
    - simpl. destruct (omap _ _); eauto.
    - intros i Hi%elem_of_elements.
      destruct (dict_get (_productos_por_id self) i) eqn:Hd; [by eexists|].
      exfalso. apply Hn. by exists i. }
  split_and!; [done..|].
  intros e He.
  destruct (decide (set_Exists
              (λ i, dict_get (_productos_por_id self) i = None)
              (conjunto_exacto self consulta))) as [Hex|Hnex].
  - assert colgado as Hcol by (destruct Hex as (i & ? & ?); by exists i).
    split; [|done]. rewrite (Hsi Hcol) in He. unfold valor in He. simpl in He.
    congruence.
  - destruct Hno as [r Hr].
    + intros (i & Hi & Hn). apply Hnex. by exists i.
    + rewrite Hr in He. done.
Qed.

Lemma X12_normaliza_projection_witness : _normaliza "pen" = "pen"%string.
Proof.
  destruct (X12_normaliza_projection "pen") as (_ & _ & _ & _ & H).
  apply (H db_nueva [Anadir "Pen" 3 1.5%float] {[1]}).
  vm_compute. reflexivity.
Defined.

Lemma X13_search_key_error_witness :
  buscar_por_nombre "pen"
    {| conn := db_nueva; _productos_por_id := [];
       _nombre_idx := {["pen"%string := {[7]}]} |}
  = (inl KeyError,
     {| conn := db_nueva; _productos_por_id := [];
        _nombre_idx := {["pen"%string := {[7]}]} |}).
Proof.
  apply (proj1 (X13_search_key_error _ "pen")).
  exists 7. split; [|reflexivity].
  unfold conjunto_exacto. simpl.
  change (_normaliza "pen") with "pen"%string.
  rewrite lookup_singleton_eq. simpl. by apply elem_of_singleton.
Defined.

(** ** Create, then delete *)

(** X14. Delete undoes create: on a rebuilt layer after any sequence of
    calls, when [anadir_producto] returns an object and [eliminar_producto]
    of its id then returns True, the dict (entries and order), the name
    index and the rows of the table are what they were before the two
    calls. Only the connection remembers: two more statements were
    executed and the id is spent. *)
Theorem X14_delete_undoes_create
    (c : Conexion) (ops : list Operacion) (n : string) (cant : Z) (pr : float)
    (p : Producto) (i : Z) (self1 self2 : Inventario) :
  let self := ejecutar ops (__init__ c) in
  anadir_producto n cant pr self = (inr p, self1) →
  id p = Some i →
  eliminar_producto i self1 = (inr true, self2) →
  _productos_por_id self2 = _productos_por_id self
  ∧ _nombre_idx self2 = _nombre_idx self
  ∧ productos (conn self2) = productos (conn self)
  ∧ llamadas (conn self2)
    = llamadas (conn self) ++ [INSERT (Str.strip n) cant pr; DELETE i]
  ∧ sqlite_sequence (conn self2) = i.
Proof.
  intros self Hadd Hid Hdel.
  pose proof (Inv_alcanzable c ops) as HI. fold self in HI.
  pose proof (Inv_anadir_producto n cant pr self HI) as HI1.
  rewrite Hadd in HI1. cbn [snd] in HI1.
  pose proof (Inv_eliminar_producto i self1 HI1) as HI2.
  rewrite Hdel in HI2. cbn [snd] in HI2.
  rewrite anadir_producto_eq in Hadd.
  destruct ((cant <? 0) || PrimFloat.ltb pr 0%float); [done|].
  destruct (execute _ (conn self)) as [[e|j] c1] eqn:E1; [done|].
  injection Hadd as <- <-. simpl in Hid. injection Hid as ->.
  rewrite (_indexar_Some _ i) in * by done.
  pose proof (execute_llamadas (INSERT (Str.strip n) cant pr) (conn self)) as Hl1.
  rewrite E1 in Hl1. cbn [snd] in Hl1.
  assert (sqlite_sequence c1 = i) as Hseq.
  { unfold execute, aplicar in E1. repeat case_match; by simplify_eq. }
  apply execute_INSERT in E1 as (Ht1 & Hfresh & _).
  assert (dict_get (_productos_por_id self) i = None) as Hnone.
  { rewrite dict_get_vista. by apply (espejo_None _ _ _ (inv_espejo _ HI)). }
  rewrite eliminar_producto_eq in Hdel. simpl in Hdel.
  rewrite dict_get_set in Hdel. case_decide; [|done].
  destruct (execute _ c1) as [[e|r] c2] eqn:E2; [done|].
  injection Hdel as <-.
  pose proof (execute_llamadas (DELETE i) c1) as Hl2.
  rewrite E2 in Hl2. cbn [snd] in Hl2.
  assert (sqlite_sequence c2 = sqlite_sequence c1) as Hseq2.
  { unfold execute, aplicar, con_tabla in E2. repeat case_match; by simplify_eq. }
  apply execute_DELETE in E2 as [Ht2 _].
  unfold _desindexar in *. simpl in *.
  assert (dict_pop (dict_set (_productos_por_id self) i
                      (mkProducto (Some i) (Str.strip n) cant pr)) i
          = _productos_por_id self) as Hd by (by apply dict_pop_set_new).
  split_and!.
  - done.
  - apply (idx_unico _ (vista (_productos_por_id self)) _ _
             (inv_idx _ HI2) (inv_idx _ HI) (inv_vacios _ HI2) (inv_vacios _ HI)).
    intros k. simpl. by rewrite Hd.
  - rewrite Ht2, Ht1, delete_insert_eq. by apply delete_id.
  - by rewrite Hl2, Hl1, <- app_assoc.
  - congruence.
Qed.

Lemma X14_delete_undoes_create_witness :
  _productos_por_id
    (eliminar_producto 2 (anadir_producto "Ink" 7 0.25%float ejemplo_pen).2).2
  = _productos_por_id ejemplo_pen
  ∧ _nombre_idx
      (eliminar_producto 2 (anadir_producto "Ink" 7 0.25%float ejemplo_pen).2).2
    = _nombre_idx ejemplo_pen.
Proof.
  destruct (X14_delete_undoes_create db_nueva [Anadir "Pen" 3 1.5%float]
              "Ink" 7 0.25%float (mkProducto (Some 2) "Ink" 7 0.25%float) 2
              (anadir_producto "Ink" 7 0.25%float ejemplo_pen).2
              (eliminar_producto 2
                 (anadir_producto "Ink" 7 0.25%float ejemplo_pen).2).2)
    as (H1 & H2 & _).
  - vm_compute. reflexivity.
  - reflexivity.
  - vm_compute. reflexivity.
  - split; [exact H1|exact H2].
Defined.

(** ** A call that raises *)

(** What a statement does depends on the rows and on the counter of the
    connection, not on the statements executed before. *)
Lemma execute_sin_registro s c1 c2 :
  productos c1 = productos c2 →
  sqlite_sequence c1 = sqlite_sequence c2 →
  (execute s c1).1 = (execute s c2).1
  ∧ productos (execute s c1).2 = productos (execute s c2).2
  ∧ sqlite_sequence (execute s c1).2 = sqlite_sequence (execute s c2).2.
Proof.
  destruct c1 as [t1 n1 l1], c2 as [t2 n2 l2]. simpl. intros -> ->.
  unfold execute, aplicar, con_tabla, siguiente_rowid. simpl.
  repeat case_match; simplify_eq; done.
Qed.

(** Two layers with the same dict, the same name index, the same rows and
    the same counter answer a call alike. *)
Lemma paso_sin_registro self1 self2 op :
  _productos_por_id self1 = _productos_por_id self2 →
  _nombre_idx self1 = _nombre_idx self2 →
  productos (conn self1) = productos (conn self2) →
  sqlite_sequence (conn self1) = sqlite_sequence (conn self2) →
  lanzada self1 op = lanzada self2 op
  ∧ _productos_por_id (paso self1 op) = _productos_por_id (paso self2 op)
  ∧ _nombre_idx (paso self1 op) = _nombre_idx (paso self2 op)
  ∧ productos (conn (paso self1 op)) = productos (conn (paso self2 op))
  ∧ sqlite_sequence (conn (paso self1 op))
    = sqlite_sequence (conn (paso self2 op)).
Proof.
  destruct self1 as [c1 d1 x1], self2 as [c2 d2 x2]. simpl.
  intros -> -> Ht Hs.
  destruct op as [n c pr|i|i c|i pr|i n]; unfold lanzada, paso;
    [rewrite !anadir_producto_eq|rewrite !eliminar_producto_eq
    |rewrite !actualizar_cantidad_eq|rewrite !actualizar_precio_eq
    |rewrite !actualizar_nombre_eq]; simpl;
    match goal with
    | |- context [execute ?s c1] =>
        pose proof (execute_sin_registro s c1 c2 Ht Hs) as (H1 & H2 & H3)
    end;
    repeat match goal with
    | |- context [if ?b then _ else _] => destruct b; [done|]
    | |- context [match dict_get ?d ?k with _ => _ end] =>
        destruct (dict_get d k); [|done]
    end;
    try done;
    destruct (execute _ c1) as [[e1|r1] c1'], (execute _ c2) as [[e2|r2] c2'];
    simpl in *; simplify_eq; try done;
    unfold _indexar, _desindexar, _reindexar_nombre, _indexar, con_conn;
    simpl; repeat case_match; done.
Qed.

Lemma ejecutar_sin_registro ops self1 self2 :
  _productos_por_id self1 = _productos_por_id self2 →
  _nombre_idx self1 = _nombre_idx self2 →
  productos (conn self1) = productos (conn self2) →
  sqlite_sequence (conn self1) = sqlite_sequence (conn self2) →
  _productos_por_id (ejecutar ops self1) = _productos_por_id (ejecutar ops self2)
  ∧ _nombre_idx (ejecutar ops self1) = _nombre_idx (ejecutar ops self2)
  ∧ productos (conn (ejecutar ops self1)) = productos (conn (ejecutar ops self2))
  ∧ sqlite_sequence (conn (ejecutar ops self1))
    = sqlite_sequence (conn (ejecutar ops self2)).
Proof.
  revert self1 self2. induction ops as [|op ops IH]; intros self1 self2 Hd Hx Ht Hs.
  - done.
  - destruct (paso_sin_registro self1 self2 op Hd Hx Ht Hs) as (_ & ? & ? & ? & ?).
    by apply IH.
Qed.

(** The reads look at the dict and at the name index only. *)
Lemma recoger_con_conn c self ids acc :
  recoger ids acc (con_conn c self) = ((recoger ids acc self).1, con_conn c self)
  ∧ (recoger ids acc self).2 = self.
Proof.
  revert acc. induction ids as [|i ids IH]; intros acc; [done|].
  cbn [recoger]. unfold luego, leer, raise. simpl.
  destruct (dict_get _ i); [apply IH|done].
Qed.

Lemma buscar_por_nombre_con_conn c self consulta :
  valor (buscar_por_nombre consulta (con_conn c self))
  = valor (buscar_por_nombre consulta self).
Proof.
  unfold valor, buscar_por_nombre, luego, leer, devolver. simpl.
  destruct (recoger_con_conn c self
              (elements (default ∅ (_nombre_idx self !! _normaliza consulta))) [])
    as [-> H2].
  destruct (recoger _ _ self) as [[e|r] s]; simpl in *; [done|].
  subst s. by destruct r.
Qed.

(** X15. A call that raises changes nothing but the log of the connection.
    Whatever the state and whatever the exception (ValueError of the class,
    or an error of [execute]), it is not a KeyError, and after it
    the dict, the name index, the rows of the table and the AUTOINCREMENT
    counter are what they were: no id is spent, the three reads answer as
    before, and any further sequence of calls ends with the same dict, index,
    rows and counter as if the failed call had not been made. *)
Theorem X15_failed_call_changes_nothing
    (self : Inventario) (op : Operacion) (e : Excepcion) :
  lanzada self op = Some e →
  let self' := paso self op in
  e ≠ KeyError
  ∧ _productos_por_id self' = _productos_por_id self
  ∧ _nombre_idx self' = _nombre_idx self
  ∧ productos (conn self') = productos (conn self)
  ∧ sqlite_sequence (conn self') = sqlite_sequence (conn self)
  ∧ (∀ consulta i,
       valor (buscar_por_nombre consulta self')
       = valor (buscar_por_nombre consulta self)
       ∧ valor (listar_todos self') = valor (listar_todos self)
       ∧ valor (obtener_por_id i self') = valor (obtener_por_id i self))
  ∧ (∀ ops,
       _productos_por_id (ejecutar ops self')
       = _productos_por_id (ejecutar ops self)
       ∧ _nombre_idx (ejecutar ops self') = _nombre_idx (ejecutar ops self)
       ∧ productos (conn (ejecutar ops self'))
         = productos (conn (ejecutar ops self))
       ∧ sqlite_sequence (conn (ejecutar ops self'))
         = sqlite_sequence (conn (ejecutar ops self))).
Proof.
  intros He self'.
  assert (e ≠ KeyError
          ∧ self' = con_conn (conn self') self
          ∧ productos (conn self') = productos (conn self)
          ∧ sqlite_sequence (conn self') = sqlite_sequence (conn self))
    as (Hk & Hs & Ht & Hn).
  { subst self'. revert He.
    destruct op as [n c pr|i|i c|i pr|i n]; unfold lanzada, paso;
      [rewrite anadir_producto_eq|rewrite eliminar_producto_eq
      |rewrite actualizar_cantidad_eq|rewrite actualizar_precio_eq
      |rewrite actualizar_nombre_eq];
      intros He; repeat case_match; cbn [fst snd] in *; simplify_eq;
      try (by destruct self);
      match goal with
      | H : execute _ _ = (inl _, _) |- _ =>
          pose proof H as Hcopia; apply execute_error in H as (Ht & Hn & _)
      end;
      (split_and!; [|done|done|done]);
      intros ->; unfold execute, aplicar in Hcopia;
      repeat case_match; simplify_eq. }
  assert (_productos_por_id self' = _productos_por_id self) as Hd
    by (by rewrite Hs).
  assert (_nombre_idx self' = _nombre_idx self) as Hx by (by rewrite Hs).
  split_and!; try done.
  - intros consulta i. rewrite Hs. split_and!.
    + apply buscar_por_nombre_con_conn.
    + done.
    + done.
  - intros ops. by apply ejecutar_sin_registro.
Qed.

Lemma X15_failed_call_changes_nothing_witness :
  _productos_por_id (paso ejemplo_pen (ActualizarPrecio 1 nan))
  = _productos_por_id ejemplo_pen
  ∧ sqlite_sequence (conn (paso ejemplo_pen (ActualizarPrecio 1 nan))) = 1.
Proof.
  destruct (X15_failed_call_changes_nothing ejemplo_pen
              (ActualizarPrecio 1 nan) IntegrityError) as (_ & H1 & _ & _ & H2 & _).
  - vm_compute. reflexivity.
  - split; [exact H1|exact H2].
Defined.

(** ** The listing as a report of the table *)

(** X16. [listar_todos] reports the table: in a rebuilt layer after any
    sequence of calls, the list it returns has one object for each row of
    [productos] and no other; its objects are those that [obtener_por_id]
    returns; and each carries the id of its row and, as Python's [==] sees
    them, the name, quantity and price of that row. *)
Theorem X16_listing_reports_table (c : Conexion) (ops : list Operacion) :
  let self := ejecutar ops (__init__ c) in
  ∃ r, listar_todos self = (inr r, self)
    ∧ length r = size (productos (conn self))
    ∧ (∀ p, p ∈ r ↔ ∃ i, obtener_por_id i self = (inr (Some p), self))
    ∧ (∀ k f, productos (conn self) !! k = Some f →
         ∃ p, p ∈ r ∧ id p = Some k ∧ fila_py (fila_de p) = fila_py f)
    ∧ (∀ p, p ∈ r →
         ∃ k f, id p = Some k ∧ productos (conn self) !! k = Some f
              ∧ fila_py (fila_de p) = fila_py f).
Proof.
  intros self. pose proof (Inv_alcanzable c ops) as HI. fold self in HI.
  destruct HI as [Hnd Hids Hesp _ _].
  exists (sorted clave_orden (dict_values (_productos_por_id self))).
  assert (∀ p, p ∈ sorted clave_orden (dict_values (_productos_por_id self))
               ↔ ∃ i, vista (_productos_por_id self) !! i = Some p) as Hel.
  { intros p. rewrite sorted_perm. unfold dict_values. rewrite list_elem_of_fmap.
    split.
    - intros ([k q] & -> & Hin). exists k. by apply elem_of_list_to_map.
    - intros (i & Hi). exists (i, p). split; [done|].
      by apply elem_of_list_to_map. }
  assert (∀ k, (fila_py ∘ fila_de) <$> vista (_productos_por_id self) !! k
               = fila_py <$> productos (conn self) !! k) as Hk.
  { intros k. by rewrite <- !lookup_fmap, Hesp. }
  split_and!.
  - done.
  - rewrite (Permutation_length (sorted_perm _ _)).
    unfold dict_values. rewrite length_fmap.
    rewrite <- (map_size_fmap fila_py (productos (conn self))), <- Hesp.
    rewrite map_size_fmap. unfold vista.
    rewrite <- (length_fmap fst), <- (size_dom (D := gset Z)).
    rewrite dom_list_to_map_L, size_list_to_set; done.
  - intros p. rewrite Hel. unfold obtener_por_id, leer.
    split; intros [i Hi]; exists i.
    + by rewrite dict_get_vista, Hi.
    + rewrite dict_get_vista in Hi. by simplify_eq.
  - intros k f Hf. specialize (Hk k). rewrite Hf in Hk.
    destruct (vista (_productos_por_id self) !! k) as [p|] eqn:Hp; [|done].
    exists p. split_and!.
    + apply Hel. by exists k.
    + by apply Hids.
    + simpl in Hk. by apply (inj Some).
  - intros p [k Hp]%Hel. specialize (Hk k). rewrite Hp in Hk.
    destruct (productos (conn self) !! k) as [f|] eqn:Hf; [|done].
    exists k, f. split_and!; [by apply Hids|done|].
    simpl in Hk. by apply (inj Some).
Qed.

(** ** Calls that return *)





(** ** Duplicate names *)

(** X18. Names are not unique: in a rebuilt layer after any sequence of
    calls, when two calls of [anadir_producto] in a row return, with names
    that normalize alike (the same name, or one that differs in case or in
    surrounding whitespace), the two objects have different ids, and
    a search for either name returns both of them, among objects whose names
    all normalize to that same key. *)
Theorem X18_duplicate_names_coexist
    (c : Conexion) (ops : list Operacion) (n1 n2 : string) (cant1 cant2 : Z)
    (pr1 pr2 : float) (p1 p2 : Producto) (self1 self2 : Inventario) :
  let self := ejecutar ops (__init__ c) in
  anadir_producto n1 cant1 pr1 self = (inr p1, self1) →
  anadir_producto n2 cant2 pr2 self1 = (inr p2, self2) →
  _normaliza n1 = _normaliza n2 →
  id p1 ≠ id p2
  ∧ ∃ r, buscar_por_nombre n1 self2 = (inr r, self2)
       ∧ buscar_por_nombre n2 self2 = (inr r, self2)
       ∧ p1 ∈ r ∧ p2 ∈ r
       ∧ ∀ p, p ∈ r → _normaliza (nombre p) = _normaliza n1.
Proof.
  intros self H1 H2 Hn.
  pose proof (Inv_alcanzable c ops) as HI. fold self in HI.
  pose proof (Inv_anadir_producto n1 cant1 pr1 self HI) as HI1.
  rewrite H1 in HI1. cbn [snd] in HI1.
  pose proof (Inv_anadir_producto n2 cant2 pr2 self1 HI1) as HI2.
  rewrite H2 in HI2. cbn [snd] in HI2.
  destruct (anadir_producto_id _ _ _ _ _ _ H1) as (i1 & Hi1 & _ & _ & Hs1).
  destruct (anadir_producto_id _ _ _ _ _ _ H2) as (i2 & Hi2 & _ & Hlt & _).
  assert (i1 ≠ i2) as Hne by lia.
  (* the dict after the two calls *)
  assert (dict_get (_productos_por_id self1) i1 = Some p1
          ∧ nombre p1 = Str.strip n1) as [Hg1 Hnom1].
  { rewrite anadir_producto_eq in H1.
    destruct ((cant1 <? 0) || PrimFloat.ltb pr1 0%float); [done|].
    destruct (execute _ (conn self)) as [[e|j] c1]; [done|].
    injection H1 as <- <-. simpl in Hi1. injection Hi1 as ->.
    rewrite (_indexar_Some _ i1) by done. simpl.
    rewrite dict_get_set. by case_decide. }
  assert (dict_get (_productos_por_id self2) i2 = Some p2
          ∧ dict_get (_productos_por_id self2) i1 = Some p1
          ∧ nombre p2 = Str.strip n2) as (Hg2 & Hg1' & Hnom2).
  { rewrite anadir_producto_eq in H2.
    destruct ((cant2 <? 0) || PrimFloat.ltb pr2 0%float); [done|].
    destruct (execute _ (conn self1)) as [[e|j] c2]; [done|].
    injection H2 as <- <-. simpl in Hi2. injection Hi2 as ->.
    rewrite (_indexar_Some _ i2) by done. simpl.
    rewrite !dict_get_set. by repeat case_decide. }
  split; [congruence|].
  (* both ids are in the set of the index under the key of the name *)
  assert (∀ i p, dict_get (_productos_por_id self2) i = Some p →
                 _normaliza (nombre p) = _normaliza n1 →
                 p ∈ exactos self2 n1) as Hex.
  { intros i p Hp Hk. unfold exactos. apply list_elem_of_omap.
    exists i. split; [|done]. apply elem_of_elements.
    apply (elem_of_conjunto_exacto _ _ _ HI2). by exists p. }
  assert (p1 ∈ exactos self2 n1) as Hp1.
  { apply (Hex i1); [done|]. by rewrite Hnom1, _normaliza_strip. }
  assert (p2 ∈ exactos self2 n1) as Hp2.
  { apply (Hex i2); [done|]. by rewrite Hnom2, _normaliza_strip. }
  assert (exactos self2 n2 = exactos self2 n1) as Hmismo.
  { unfold exactos, conjunto_exacto. by rewrite Hn. }
  exists (exactos self2 n1).
  rewrite !(buscar_por_nombre_eq _ _ HI2), Hmismo.
  destruct (exactos self2 n1) as [|q r] eqn:E.
  - by apply elem_of_nil in Hp1.
  - split_and!; try done.
    intros p Hp. rewrite <- E in Hp.
    by apply (exactos_valores _ _ _ HI2) in Hp as [_ ?].
Qed.

Lemma X18_duplicate_names_coexist_witness :
  ∃ r, buscar_por_nombre "Pen"
         (ejecutar [Anadir "Pen" 3 1.5%float; Anadir " PEN " 7 0.25%float]
                   (__init__ db_nueva))
       = (inr r,
          ejecutar [Anadir "Pen" 3 1.5%float; Anadir " PEN " 7 0.25%float]
                   (__init__ db_nueva))
     ∧ mkProducto (Some 1) "Pen" 3 1.5%float ∈ r
     ∧ mkProducto (Some 2) "PEN" 7 0.25%float ∈ r.
Proof.
  destruct (X18_duplicate_names_coexist db_nueva [] "Pen" " PEN " 3 7
              1.5%float 0.25%float
              (mkProducto (Some 1) "Pen" 3 1.5%float)
              (mkProducto (Some 2) "PEN" 7 0.25%float)
              ejemplo_pen
              (ejecutar [Anadir "Pen" 3 1.5%float; Anadir " PEN " 7 0.25%float]
                        (__init__ db_nueva)))
    as (_ & r & Hr & _ & Hp1 & Hp2 & _).
  - vm_compute. reflexivity.
  - vm_compute. reflexivity.
  - vm_compute. reflexivity.
  - exists r. split_and!; [exact Hr|exact Hp1|exact Hp2].
Defined.
